(** * segvcatcher: a backtrace on SIGSEGV in an uncooperative host

    A shallow embedding of [segvcatcher.c] (the preloaded library) and of
    the handler of [testsegvcatcher.c] (a host), together with the part of
    the kernel the library talks to: the table of signal dispositions,
    [sigaction(2)], signal delivery with [SA_RESETHAND], the default
    actions of signal(7), [write(2)], [_exit(2)], [time(2)], [sleep(3)],
    [kill(2)] and glibc's [backtrace(3)].

    A process is a record of the kernel's disposition table, the library's
    static variables and a log of what the library did.  Library code is
    written in a small monad over that record whose computations return,
    end the process, or run out of fuel. *)

From Stdlib Require Import ZArith String Ascii.
From stdpp Require Import base numbers list strings gmap.

Open Scope Z_scope.

(** ** Constants of the source and of the system headers *)

Definition DELAY : Z := 3.
Definition TRACEBUFLEN : Z := 64.
Definition STDERR_FILENO : Z := 2.

(** Linux numbering, <asm/signal.h>; [SIGUNUSED] is a synonym of [SIGSYS]. *)
Definition SIGKILL : Z := 9.
Definition SIGSEGV : Z := 11.
Definition SIGSTOP : Z := 19.
Definition SIGUNUSED : Z := 31.
Definition IPC_SIG : Z := SIGUNUSED.

Definition SA_RESTART : Z := 0x10000000.
Definition SA_RESETHAND : Z := 0x80000000.

(** ** Handlers and dispositions *)

(** A pointer to a signal handler, [__sighandler_t].  [SIG_DFL] and [SIG_IGN] are the two
    sentinels (the pointers 0 and 1 on Linux, so a zero-initialised static
    pointer is [SIG_DFL]); [ptr_handle_segv] and [ptr_set_segv] are the
    addresses of the library's two static functions; [ptr_host a] is a
    function of the host at address [a]. *)
Inductive sighandler_t : Type :=
  | SIG_DFL
  | SIG_IGN
  | ptr_handle_segv
  | ptr_set_segv
  | ptr_host (a : Z).

#[global] Instance sighandler_eq_dec : EqDecision sighandler_t.
Proof. solve_decision. Defined.

(** [struct sigaction]: [sa_mask] is the set of blocked signals, [sa_flags]
    the flag word. *)
Record struct_sigaction : Type := SigAction {
  sa_handler : sighandler_t;
  sa_mask : list Z;
  sa_flags : Z
}.

#[global] Instance struct_sigaction_eq_dec : EqDecision struct_sigaction.
Proof. solve_decision. Defined.

Definition has_flag (flag flags : Z) : bool := negb (Z.land flags flag =? 0).

(** The disposition of a signal nobody has touched. *)
Definition default_disposition : struct_sigaction :=
  {| sa_handler := SIG_DFL; sa_mask := []; sa_flags := 0 |}.

(** ** What the library does, in order *)

Inductive event : Type :=
  | EWrite (fd : Z) (msg : string)
      (* write(fd, msg, strlen(msg)) *)
  | ESymbols (fd : Z) (frames : list Z)
      (* backtrace_symbols_fd: one line per frame *)
  | ECall (h : sighandler_t) (x : Z)
      (* a call through original_segv_handler *)
  | EStore (h : sighandler_t)
      (* an assignment to original_segv_handler *)
  | ESigaction (sig : Z) (act : struct_sigaction)
      (* a sigaction call that installs act for sig *)
  | ESleep (seconds : Z)
  | EKill (pid sig : Z).

#[global] Instance event_eq_dec : EqDecision event.
Proof. solve_decision. Defined.

(** ** The process *)

Record process : Type := Process {
  sigtab : gmap Z struct_sigaction;
      (* kernel: the dispositions that differ from the default *)
  original_segv_handler : sighandler_t;
      (* static void ( *original_segv_handler)(int) *)
  trace : list Z;
      (* static void *trace[TRACEBUFLEN], local to handle_segv *)
  traces : Z;
      (* static int traces, local to handle_segv *)
  log : list event
}.

Definition disposition (p : process) (sig : Z) : struct_sigaction :=
  default default_disposition (sigtab p !! sig).

Definition set_sigtab (t : gmap Z struct_sigaction) (p : process) : process :=
  Process t (original_segv_handler p) (trace p) (traces p) (log p).
Definition set_original (h : sighandler_t) (p : process) : process :=
  Process (sigtab p) h (trace p) (traces p) (log p).
Definition set_trace (b : list Z) (p : process) : process :=
  Process (sigtab p) (original_segv_handler p) b (traces p) (log p).
Definition set_traces (n : Z) (p : process) : process :=
  Process (sigtab p) (original_segv_handler p) (trace p) n (log p).
Definition emit (e : event) (p : process) : process :=
  Process (sigtab p) (original_segv_handler p) (trace p) (traces p)
          (log p ++ [e]).

(** The process as the loader hands it to [setup]: every disposition is
    the default one, statics are zero, nothing has been done. *)
Definition init_process : process :=
  Process ∅ SIG_DFL (replicate (Z.to_nat TRACEBUFLEN) 0) 0 [].

(** ** Outcomes *)

(** How control can leave for good. *)
Inductive ending : Type :=
  | Exited (status : Z)   (* _exit(status) or exit(status) *)
  | Killed (sig : Z)      (* the default action of sig ended the process *)
  | Diverted              (* a host handler did not return *)
  | Undefined.            (* undefined behaviour: a write past a buffer, a
                             jump through a sentinel pointer, a read of an
                             uninitialised struct *)

Inductive result (A : Type) : Type :=
  | Ret (a : A) (p : process)
  | Halt (e : ending) (p : process)
  | Fuel (p : process).
      (* the model stops here: no clock reading or no fuel is left *)
Arguments Ret {A} a p.
Arguments Halt {A} e p.
Arguments Fuel {A} p.

Definition M (A : Type) : Type := process -> result A.

Definition ret {A} (a : A) : M A := fun p => Ret a p.
Definition bind {A B} (m : M A) (k : A -> M B) : M B :=
  fun p => match m p with
           | Ret a p' => k a p'
           | Halt e p' => Halt e p'
           | Fuel p' => Fuel p'
           end.

Notation "x <- m ;; k" := (bind m (fun x => k))
  (at level 100, m at next level, right associativity).
Notation "m ;; k" := (bind m (fun _ => k))
  (at level 100, right associativity).

Definition get {A} (f : process -> A) : M A := fun p => Ret (f p) p.
Definition modify (f : process -> process) : M unit := fun p => Ret tt (f p).
Definition halt {A} (e : ending) : M A := fun p => Halt e p.

Definition out_of_fuel {A} : M A := fun p => Fuel p.

(** The process a result leaves behind. *)
Definition final {A} (r : result A) : process :=
  match r with
  | Ret _ p | Halt _ p | Fuel p => p
  end.

Definition returned {A} (r : result A) : bool :=
  match r with
  | Ret _ _ => true
  | _ => false
  end.

(** ** System and library calls *)

(** [WRITE(msg)]: [write(STDERR_FILENO, msg, sizeof(msg) - 1)]. *)
Definition WRITE (msg : string) : M unit := modify (emit (EWrite STDERR_FILENO msg)).

Definition _exit {A} (status : Z) : M A := halt (Exited status).

(** What the parent sees of an exit status: its low eight bits. *)
Definition wait_status (status : Z) : Z := Z.land status 255.

(** [backtrace(buffer, size)] on the static [trace]: stores the innermost
    [size] return addresses of [stack] at the front of the buffer and
    returns how many it stored.  A store past the end of the buffer is
    undefined behaviour.  What the call leaves in the entries after the
    stored ones is not part of its contract (glibc may put a null pointer
    into the first of them); they are kept as they were here, and no
    property below is about them. *)
Definition backtrace (stack : list Z) (size : Z) : M Z :=
  fun p =>
    let frames := take (Z.to_nat size) stack in
    let n := length frames in
    if bool_decide (n <= length (trace p))%nat
    then Ret (Z.of_nat n) (set_trace (frames ++ drop n (trace p)) p)
    else Halt Undefined p.

(** [backtrace_symbols_fd(trace, size, fd)]: writes one line for each of
    the first [size] entries of the buffer.  Reading past its end is
    undefined behaviour. *)
Definition backtrace_symbols_fd (size : Z) (fd : Z) : M unit :=
  fun p =>
    if bool_decide (Z.to_nat size <= length (trace p))%nat
    then Ret tt (emit (ESymbols fd (take (Z.to_nat size) (trace p))) p)
    else Halt Undefined p.

(** [sigaction(2)].  The signal must be one of 1..64 and, to install an
    action, neither SIGKILL nor SIGSTOP; otherwise the call fails with
    EINVAL, changes nothing and fills nothing in ([None]). *)
Definition valid_signal (sig : Z) : bool := (1 <=? sig) && (sig <=? 64).
Definition catchable (sig : Z) : bool :=
  valid_signal sig && negb (sig =? SIGKILL) && negb (sig =? SIGSTOP).

Definition kernel_sigaction (sig : Z) (act : option struct_sigaction)
    (p : process) : option (struct_sigaction * process) :=
  match act with
  | None =>
      if valid_signal sig then Some (disposition p sig, p) else None
  | Some a =>
      if catchable sig
      then Some (disposition p sig, set_sigtab (<[sig := a]> (sigtab p)) p)
      else None
  end.

(** [sigaction] as the library calls it: the call is logged when it
    installs something. *)
Definition sigaction (sig : Z) (act : struct_sigaction) : M (option struct_sigaction) :=
  fun p =>
    match kernel_sigaction sig (Some act) p with
    | Some (old, p') => Ret (Some old) (emit (ESigaction sig act) p')
    | None => Ret None p
    end.

(** [sigemptyset(&a.sa_mask)]. *)
Definition sigemptyset (a : struct_sigaction) : struct_sigaction :=
  {| sa_handler := sa_handler a; sa_mask := []; sa_flags := sa_flags a |}.

(** [time_t] is a signed 64-bit integer; [time_t z] is [z] wrapped into
    its range. *)
Definition TIME_MAX : Z := 2 ^ 63 - 1.
Definition time_t (z : Z) : Z := (z + 2 ^ 63) mod 2 ^ 64 - 2 ^ 63.

(** [sleep(seconds)] takes an [unsigned int].  How long the process really
    slept is not recorded here: it shows in the next reading of the clock. *)
Definition sleep (seconds : Z) : M unit := modify (emit (ESleep (seconds mod 2 ^ 32))).

Definition kill (pid sig : Z) : M unit := modify (emit (EKill pid sig)).

(** ** segvcatcher.c *)

Definition LF : string := String (ascii_of_nat 10) EmptyString.

Definition msg_received : string := "SIGSEGV received. Backtrace:" +:+ LF.
Definition msg_end : string := "End of backtrace. ".
Definition msg_calling : string := "Calling original SIGSEGV handler." +:+ LF.
Definition msg_quitting : string :=
  "No other SIGSEGV handler available. " +:+ "Quitting." +:+ LF.

(** [handle_segv].  [stack] is the chain of return addresses that is
    active when [backtrace] is called, innermost first; [call] is the
    machine's indirect call, which [invoke] below supplies. *)
Definition handle_segv (call : sighandler_t -> Z -> M unit)
    (stack : list Z) (x : Z) : M unit :=
  WRITE msg_received ;;
  n <- backtrace stack TRACEBUFLEN ;;
  modify (set_traces n) ;;
  n <- get traces ;;
  backtrace_symbols_fd n STDERR_FILENO ;;
  WRITE msg_end ;;
  h <- get original_segv_handler ;;
  if negb (bool_decide (h = SIG_IGN)) && negb (bool_decide (h = SIG_DFL))
  then
    WRITE msg_calling ;;
    modify (emit (ECall h x)) ;;
    call h x
  else
    WRITE msg_quitting ;;
    _exit (Z.lor (Z.shiftl 1 7) x).

(** [set_segv].  When [sigaction] fails, [orig] is read uninitialised. *)
Definition set_segv (x : Z) : M unit :=
  let new := {| sa_handler := ptr_handle_segv; sa_mask := []; sa_flags := 0 |} in
  let new := sigemptyset new in
  orig <- sigaction SIGSEGV new ;;
  match orig with
  | Some orig =>
      modify (emit (EStore (sa_handler orig))) ;;
      modify (set_original (sa_handler orig))
  | None => halt Undefined
  end.

(** The loop of [child]: [clock] holds the values the coming calls of
    [time(NULL)] return.  The body runs before the test, and the test
    uses the reading taken before the sleep. *)
Fixpoint child_loop (start_time : Z) (clock : list Z) : M unit :=
  match clock with
  | [] => out_of_fuel
  | t :: clock' =>
      let zzz := time_t (time_t (start_time + DELAY) - t) in
      (if 0 <? zzz then sleep zzz else ret tt) ;;
      if t <? time_t (start_time + DELAY)
      then child_loop start_time clock'
      else ret tt
  end.

(** [child]; [ppid] is what [getppid()] returns. *)
Definition child (ppid : Z) (clock : list Z) : M unit :=
  match clock with
  | [] => out_of_fuel
  | start_time :: clock' =>
      child_loop start_time clock' ;;
      kill ppid IPC_SIG
  end.

(** [setup]; [pid] is what [fork()] returned in this process: 0 in the
    child, -1 in the parent when the fork failed, the child's pid
    otherwise.  [ppid] and [clock] matter in the child only. *)
Definition setup (pid ppid : Z) (clock : list Z) : M unit :=
  let a := {| sa_handler := ptr_set_segv; sa_mask := [];
              sa_flags := Z.lor SA_RESTART SA_RESETHAND |} in
  (if pid =? 0 then child ppid clock ;; _exit 0 else ret tt) ;;
  let a := sigemptyset a in
  sigaction IPC_SIG a ;;
  ret tt.

(** ** The host *)

(** What a handler of the host does when it is called. *)
Inductive behaviour : Type :=
  | Returns
  | Exits (status : Z)
  | NeverReturns.

(** The host's code: the behaviour of the function at an address, called
    with a signal number. *)
Definition host_env : Type := Z -> Z -> behaviour.

(** testsegvcatcher.c: [segv_handler] prints a line and calls [exit(0)]. *)
Definition segv_handler (sig : Z) : behaviour := Exits 0.
Definition test_host : host_env := fun _ => segv_handler.

(** What the host may install: a function of its own or a sentinel.  The
    library's two functions are static, no host code names them. *)
Inductive host_handler : Type :=
  | HDefault
  | HIgnore
  | HFunction (a : Z).

Definition host_ptr (h : host_handler) : sighandler_t :=
  match h with
  | HDefault => SIG_DFL
  | HIgnore => SIG_IGN
  | HFunction a => ptr_host a
  end.

(** ** The kernel: default actions and delivery *)

Inductive default_action_t : Type := Term | Core | Ign | Stop | Cont.

(** The table of signal(7). *)
Definition default_action (sig : Z) : default_action_t :=
  if bool_decide (sig ∈ [17; 23; 28]) then Ign
  else if bool_decide (sig = 18) then Cont
  else if bool_decide (sig ∈ [19; 20; 21; 22]) then Stop
  else if bool_decide (sig ∈ [3; 4; 5; 6; 7; 8; 11; 24; 25; 31]) then Core
  else Term.

Definition take_default_action (sig : Z) : M unit :=
  match default_action sig with
  | Term | Core => halt (Killed sig)
  | Ign | Stop | Cont => ret tt
  end.

(** SA_RESETHAND: on entry to the handler the kernel puts [SIG_DFL] back. *)
Definition reset_handler (sig : Z) (p : process) : process :=
  let act := disposition p sig in
  if has_flag SA_RESETHAND (sa_flags act)
  then set_sigtab (<[sig := {| sa_handler := SIG_DFL; sa_mask := sa_mask act;
                              sa_flags := sa_flags act |}]> (sigtab p)) p
  else p.

Section Host.

Variable host : host_env.

(** A call of the function [h] points to, with argument [x]. *)
Fixpoint invoke (fuel : nat) (stack : list Z) (h : sighandler_t) (x : Z)
    {struct fuel} : M unit :=
  match h with
  | SIG_DFL | SIG_IGN => halt Undefined
  | ptr_host a =>
      match host a x with
      | Returns => ret tt
      | Exits status => halt (Exited status)
      | NeverReturns => halt Diverted
      end
  | ptr_set_segv => set_segv x
  | ptr_handle_segv =>
      match fuel with
      | O => out_of_fuel
      | S fuel' => handle_segv (invoke fuel' stack) stack x
      end
  end.

(** Delivery of [sig].  [forced] tells a signal the hardware raised (an
    invalid access) from one sent with [kill]: ignoring the former ends
    the process. *)
Definition deliver (fuel : nat) (sig : Z) (forced : bool) (stack : list Z) : M unit :=
  fun p =>
    match sa_handler (disposition p sig) with
    | SIG_DFL => take_default_action sig p
    | SIG_IGN => if forced then Halt (Killed sig) p else Ret tt p
    | h => invoke fuel stack h sig (reset_handler sig p)
    end.

(** What happens to the process from outside the library. *)
Inductive input : Type :=
  | Fault (stack : list Z)
      (* the host makes an invalid memory access *)
  | Signal (sig : Z) (stack : list Z)
      (* a signal sent with kill(2), by the watchdog or by anyone *)
  | HostSigaction (sig : Z) (h : host_handler) (mask : list Z) (flags : Z).
      (* the host installs a disposition *)

Definition step (fuel : nat) (i : input) : M unit :=
  match i with
  | Fault stack => deliver fuel SIGSEGV true stack
  | Signal sig stack =>
      if valid_signal sig then deliver fuel sig false stack else ret tt
  | HostSigaction sig h mask flags =>
      fun p =>
        let act := {| sa_handler := host_ptr h; sa_mask := mask; sa_flags := flags |} in
        match kernel_sigaction sig (Some act) p with
        | Some (_, p') => Ret tt p'
        | None => Ret tt p
        end
  end.

Fixpoint run (fuel : nat) (ins : list input) : M unit :=
  match ins with
  | [] => ret tt
  | i :: ins' => step fuel i ;; run fuel ins'
  end.

End Host.

(** * Vocabulary of the statements *)

(** ** Reading the log *)

(** The saved-handler calls, the stores to [original_segv_handler], the
    signals sent and the dispositions installed that a log records. *)
Definition calls_of (l : list event) : list (sighandler_t * Z) :=
  omap (fun e => match e with ECall h x => Some (h, x) | _ => None end) l.
Definition stores_of (l : list event) : list sighandler_t :=
  omap (fun e => match e with EStore h => Some h | _ => None end) l.
Definition kills_of (l : list event) : list (Z * Z) :=
  omap (fun e => match e with EKill pid sig => Some (pid, sig) | _ => None end) l.
Definition installs_of (l : list event) : list Z :=
  omap (fun e => match e with ESigaction sig _ => Some sig | _ => None end) l.
Definition writes_of (l : list event) : list string :=
  omap (fun e => match e with EWrite _ msg => Some msg | _ => None end) l.

(** The event is a call of [sleep]. *)
Definition is_sleep (e : event) : Prop :=
  match e with ESleep _ => True | _ => False end.

(** ** The fault handler and the handshake handler, unfolded *)

(** The static buffer has the capacity of its declaration. *)
Definition buffer_ok (p : process) : Prop :=
  length (trace p) = Z.to_nat TRACEBUFLEN.

(** The frames a fault with call chain [stack] captures. *)
Definition captured (stack : list Z) : list Z := take (Z.to_nat TRACEBUFLEN) stack.

(** The process when [handle_segv] reaches its [if]. *)
Definition after_backtrace (stack : list Z) (p : process) : process :=
  let p1 := emit (EWrite STDERR_FILENO msg_received) p in
  let p2 := set_trace (captured stack ++ drop (length (captured stack)) (trace p1)) p1 in
  let p3 := set_traces (Z.of_nat (length (captured stack))) p2 in
  let p4 := emit (ESymbols STDERR_FILENO (captured stack)) p3 in
  emit (EWrite STDERR_FILENO msg_end) p4.

(** The test of [handle_segv]: the saved handler is a function. *)
Definition custom (h : sighandler_t) : bool :=
  negb (bool_decide (h = SIG_IGN)) && negb (bool_decide (h = SIG_DFL)).

(** The argument of [_exit] in [handle_segv]. *)
Definition exit_status (x : Z) : Z := Z.lor (Z.shiftl 1 7) x.

(** The disposition [set_segv] installs for SIGSEGV, and the one [setup]
    installs for the handshake signal. *)
Definition fault_action : struct_sigaction :=
  {| sa_handler := ptr_handle_segv; sa_mask := []; sa_flags := 0 |}.
Definition handshake_action : struct_sigaction :=
  {| sa_handler := ptr_set_segv; sa_mask := [];
     sa_flags := Z.lor SA_RESTART SA_RESETHAND |}.

(** The process [set_segv] leaves. *)
Definition armed_from (p : process) : process :=
  let h := sa_handler (disposition p SIGSEGV) in
  let p1 := set_sigtab (<[SIGSEGV := fault_action]> (sigtab p)) p in
  let p2 := emit (ESigaction SIGSEGV fault_action) p1 in
  set_original h (emit (EStore h) p2).

(** ** Concrete hosts, processes and call chains *)

(** A host all of whose handlers return. *)
Definition returning_host : host_env := fun _ _ => Returns.

(** The library loaded in a parent whose fork gave pid 1234. *)
Definition booted : process := final (setup 1234 1 [] init_process).

(** A host that installed its handler at address 4096 before the
    handshake signal came. *)
Definition armed_example : process :=
  final (run test_host 1
           [HostSigaction SIGSEGV (HFunction 4096) [] 0; Signal IPC_SIG []]
           booted).

(** A call chain of [n] frames, as a deep recursion leaves it. *)
Definition seq_deep (n : nat) : list Z := map Z.of_nat (seq 1 n).

(** A host without a handler of its own at the handshake. *)
Definition armed_bare : process :=
  final (run test_host 1 [Signal IPC_SIG []] booted).

(** [p] with the mask and the flags of its SIGSEGV disposition replaced,
    the handler kept. *)
Definition with_segv_mask_flags (mask : list Z) (flags : Z) (p : process) : process :=
  let h := sa_handler (disposition p SIGSEGV) in
  set_sigtab (<[SIGSEGV := {| sa_handler := h; sa_mask := mask; sa_flags := flags |}]>
                (sigtab p)) p.

(** ** Invariants of a run *)

(** The pointer is to one of the library's two functions. *)
Definition is_lib (h : sighandler_t) : bool :=
  match h with
  | ptr_handle_segv | ptr_set_segv => true
  | _ => false
  end.

(** Before the handshake: the fault handler is installed nowhere, and the
    handshake handler at most for the handshake signal, with
    SA_RESETHAND. *)
Record dormant (p : process) : Prop := Dormant {
  dormant_table :
    forall sig, sig <> IPC_SIG -> is_lib (sa_handler (disposition p sig)) = false;
  dormant_ipc : sa_handler (disposition p IPC_SIG) <> ptr_handle_segv;
  dormant_reset :
    sa_handler (disposition p IPC_SIG) = ptr_set_segv ->
    has_flag SA_RESETHAND (sa_flags (disposition p IPC_SIG)) = true
}.

(** After the handshake: [h] was stored, once, and is the saved handler;
    it is a handler of the host or a sentinel; the handshake handler is
    installed nowhere. *)
Record armed (h : sighandler_t) (p : process) : Prop := Armed {
  armed_stores : stores_of (log p) = [h];
  armed_saved : original_segv_handler p = h;
  armed_host : is_lib h = false;
  armed_table : forall sig, sa_handler (disposition p sig) <> ptr_set_segv;
  armed_buffer : buffer_ok p
}.

(** The model followed the code to its end. *)
Definition no_fuel {A} (r : result A) : Prop := forall q, r <> Fuel q.

(** A process in which the handshake has not happened. *)
Definition unarmed (p : process) : Prop :=
  dormant p /\ stores_of (log p) = [] /\ buffer_ok p.

(** A host that has installed its handler at 4096; the handshake is still
    to come. *)
Definition host_ready : process :=
  final (run test_host 1 [HostSigaction SIGSEGV (HFunction 4096) [] 0] booted).

(** What one delegated fault with call chain [stack] adds to the log. *)
Definition fault_report (h : sighandler_t) (stack : list Z) : list event :=
  [EWrite STDERR_FILENO msg_received;
   ESymbols STDERR_FILENO (take 64 stack);
   EWrite STDERR_FILENO msg_end;
   EWrite STDERR_FILENO msg_calling;
   ECall h SIGSEGV].


(** The input is a delivery of the handshake signal. *)
Definition is_handshake (i : input) : bool :=
  match i with
  | Signal sig _ => bool_decide (sig = IPC_SIG)
  | _ => false
  end.

(** ** Further processes, inputs and reports *)

(** [p] after the events [es] were logged, in order. *)
Definition emit_all (es : list event) (p : process) : process :=
  foldl (fun q e => emit e q) p es.

(** The process [setup] leaves in the parent. *)
Definition handshake_installed (p : process) : process :=
  emit (ESigaction IPC_SIG handshake_action)
       (set_sigtab (<[IPC_SIG := handshake_action]> (sigtab p)) p).

(** [p] with [act] as the disposition of the handshake signal. *)
Definition with_ipc_disposition (act : struct_sigaction) (p : process) : process :=
  set_sigtab (<[IPC_SIG := act]> (sigtab p)) p.

(** testsegvcatcher.c: what [main] does to the process before it settles
    in its [pause] loop: it installs [segv_handler], the function at
    address [a], for SIGSEGV, with an empty mask and no flag. *)
Definition main_startup (a : Z) : list input :=
  [HostSigaction SIGSEGV (HFunction a) [] 0].

(** What a fault with call chain [stack] adds to the log when there is no
    handler to delegate to. *)
Definition quit_report (stack : list Z) : list event :=
  [EWrite STDERR_FILENO msg_received;
   ESymbols STDERR_FILENO (take 64 stack);
   EWrite STDERR_FILENO msg_end;
   EWrite STDERR_FILENO msg_quitting].

(** What the kernel does with a signal whose disposition the host chose. *)
Definition host_outcome (host : host_env) (h : host_handler) (sig : Z)
    (forced : bool) (p : process) : result unit :=
  match h with
  | HDefault => take_default_action sig p
  | HIgnore => if forced then Halt (Killed sig) p else Ret tt p
  | HFunction a =>
      match host a sig with
      | Returns => Ret tt (reset_handler sig p)
      | Exits status => Halt (Exited status) (reset_handler sig p)
      | NeverReturns => Halt Diverted (reset_handler sig p)
      end
  end.

(** A host that ignores SIGSEGV, with the library loaded. *)
Definition ignoring_host : process :=
  final (step test_host 1 (HostSigaction SIGSEGV HIgnore [] 0) booted).

(** The signals that the [kill] calls recorded in a log bring to the
    process [pid], each met with the call chain [stack]. *)
Definition signals_to (pid : Z) (stack : list Z) (l : list event) : list input :=
  omap (fun e => match e with
                 | EKill target sig =>
                     if bool_decide (target = pid) then Some (Signal sig stack) else None
                 | _ => None
                 end) l.

(** [set_segv] with the point between its [sigaction] call and its
    assignment to [original_segv_handler] made explicit: [window] is what
    the handlers of the signals that interrupt it there do.  SIGSEGV is
    not blocked while the handshake handler runs: [setup] installs it
    with an empty mask. *)
Definition set_segv_interrupted (window : M unit) (x : Z) : M unit :=
  let new := {| sa_handler := ptr_handle_segv; sa_mask := []; sa_flags := 0 |} in
  let new := sigemptyset new in
  orig <- sigaction SIGSEGV new ;;
  window ;;
  match orig with
  | Some orig =>
      modify (emit (EStore (sa_handler orig))) ;;
      modify (set_original (sa_handler orig))
  | None => halt Undefined
  end.

(** No function of the library is installed for any signal. *)
Definition host_only (p : process) : Prop :=
  forall sig, is_lib (sa_handler (disposition p sig)) = false.

(** * Properties *)

(** ** The fault handler up to its branch *)

Lemma captured_length stack : (length (captured stack) <= Z.to_nat TRACEBUFLEN)%nat.
Proof. unfold captured. rewrite length_take. lia. Qed.

Lemma handle_segv_unfold call stack x p :
  buffer_ok p ->
  handle_segv call stack x p =
    let h := original_segv_handler p in
    let p1 := after_backtrace stack p in
    if custom h
    then call h x (emit (ECall h x) (emit (EWrite STDERR_FILENO msg_calling) p1))
    else Halt (Exited (exit_status x)) (emit (EWrite STDERR_FILENO msg_quitting) p1).
Proof.
  intros Hbuf. pose proof (captured_length stack) as Hcap.
  unfold handle_segv, bind, WRITE, modify, backtrace, backtrace_symbols_fd, get.
  cbn [trace emit]. fold (captured stack).
  rewrite bool_decide_eq_true_2 by (rewrite Hbuf; exact Hcap).
  cbn [traces set_traces trace set_trace]. rewrite Nat2Z.id.
  rewrite bool_decide_eq_true_2 by (rewrite length_app; lia).
  rewrite take_app_length.
  cbn [original_segv_handler emit set_traces set_trace].
  fold (custom (original_segv_handler p)).
  destruct (custom (original_segv_handler p)); reflexivity.
Qed.

Lemma after_backtrace_log stack p :
  log (after_backtrace stack p) =
    log p ++ [EWrite STDERR_FILENO msg_received;
              ESymbols STDERR_FILENO (captured stack);
              EWrite STDERR_FILENO msg_end].
Proof. cbn. rewrite <- !app_assoc. reflexivity. Qed.

Lemma after_backtrace_buffer stack p :
  buffer_ok p -> buffer_ok (after_backtrace stack p).
Proof.
  unfold buffer_ok. intros Hbuf. pose proof (captured_length stack).
  cbn. rewrite length_app, length_drop. lia.
Qed.

Lemma custom_cases h :
  custom h = false <-> h = SIG_IGN \/ h = SIG_DFL.
Proof.
  unfold custom. repeat case_bool_decide; subst; cbn; intuition congruence.
Qed.

Lemma calls_of_app l1 l2 : calls_of (l1 ++ l2) = calls_of l1 ++ calls_of l2.
Proof. apply omap_app. Qed.
Lemma stores_of_app l1 l2 : stores_of (l1 ++ l2) = stores_of l1 ++ stores_of l2.
Proof. apply omap_app. Qed.
Lemma kills_of_app l1 l2 : kills_of (l1 ++ l2) = kills_of l1 ++ kills_of l2.
Proof. apply omap_app. Qed.

(** ** The handshake handler *)

Lemma set_segv_unfold x p : set_segv x p = Ret tt (armed_from p).
Proof. reflexivity. Qed.

Lemma disposition_insert_eq sig act p :
  disposition (set_sigtab (<[sig := act]> (sigtab p)) p) sig = act.
Proof. unfold disposition. cbn. by rewrite lookup_insert_eq. Qed.

Lemma disposition_insert_ne sig sig' act p :
  sig <> sig' ->
  disposition (set_sigtab (<[sig := act]> (sigtab p)) p) sig' = disposition p sig'.
Proof. intros Hne. unfold disposition. cbn. by rewrite lookup_insert_ne. Qed.

(** ** The concrete processes are well formed *)

Lemma init_buffer_ok : buffer_ok init_process.
Proof. reflexivity. Qed.
Lemma booted_buffer_ok : buffer_ok booted.
Proof. reflexivity. Qed.
Lemma armed_example_buffer_ok : buffer_ok armed_example.
Proof. reflexivity. Qed.
Lemma armed_bare_buffer_ok : buffer_ok armed_bare.
Proof. reflexivity. Qed.

(** ** The fault handler: delegation and termination *)

(** C1: on every invocation of the fault handler with signal number [x],
    a saved handler that is neither SIG_IGN nor SIG_DFL is called exactly
    once, with [x]; otherwise the process exits and no saved handler is
    called; the two cases cover every value of the saved handler. *)
Theorem handle_segv_delegates_or_terminates stack x p :
  buffer_ok p ->
  let h := original_segv_handler p in
  (h <> SIG_IGN /\ h <> SIG_DFL ->
     exists p1,
       (forall call, handle_segv call stack x p = call h x p1)
       /\ calls_of (log p1) = calls_of (log p) ++ [(h, x)])
  /\ (h = SIG_IGN \/ h = SIG_DFL ->
     exists status p1,
       (forall call, handle_segv call stack x p = Halt (Exited status) p1)
       /\ calls_of (log p1) = calls_of (log p))
  /\ (h = SIG_IGN \/ h = SIG_DFL \/ (h <> SIG_IGN /\ h <> SIG_DFL)).
Proof.
  intros Hbuf h. split; [|split].
  - intros Hcustom.
    assert (custom h = true) as Hc.
    { destruct (custom h) eqn:E; [done|]. apply custom_cases in E. tauto. }
    eexists. split.
    + intros call. rewrite handle_segv_unfold by done. cbn zeta.
      fold h. rewrite Hc. reflexivity.
    + cbn [log emit]. rewrite !calls_of_app, after_backtrace_log, calls_of_app.
      cbn. by rewrite !app_nil_r.
  - intros Hsent. apply custom_cases in Hsent.
    eexists _, _. split.
    + intros call. rewrite handle_segv_unfold by done. cbn zeta.
      fold h. rewrite Hsent. reflexivity.
    + cbn [log emit]. rewrite !calls_of_app, after_backtrace_log, calls_of_app.
      cbn. by rewrite !app_nil_r.
  - destruct (custom h) eqn:E.
    + right; right. split; intros ->; discriminate E.
    + apply custom_cases in E. tauto.
Qed.

Lemma handle_segv_delegates_or_terminates_witness :
  buffer_ok armed_example
  /\ exists p1,
       (forall call, handle_segv call [1; 2; 3] SIGSEGV armed_example
                     = call (ptr_host 4096) SIGSEGV p1)
       /\ calls_of (log p1) = [(ptr_host 4096, SIGSEGV)].
Proof.
  split; [exact armed_example_buffer_ok|].
  destruct (handle_segv_delegates_or_terminates [1; 2; 3] SIGSEGV armed_example
              armed_example_buffer_ok) as [H _].
  apply H. split; discriminate.
Defined.

(** C2, as the specification states it, fails: with a saved handler that
    returns, the fault handler completes and returns to the interrupted
    code. *)
Lemma fault_handler_can_return :
  returned (invoke returning_host 1 [1; 2; 3] ptr_handle_segv SIGSEGV armed_example) = true.
Proof. vm_compute. reflexivity. Qed.

(** C2, amended: the fault handler never returns when the saved handler is
    SIG_IGN or SIG_DFL, the process exits then; when it delegates, the
    call of the saved handler is its last action, so it returns to the
    interrupted code exactly when the saved handler returns. *)
Theorem fault_handler_returns_iff_delegate_returns host fuel stack x p :
  buffer_ok p ->
  let h := original_segv_handler p in
  let r := invoke host (S fuel) stack ptr_handle_segv x p in
  (h = SIG_IGN \/ h = SIG_DFL ->
     exists p', r = Halt (Exited (exit_status x)) p')
  /\ (h <> SIG_IGN /\ h <> SIG_DFL ->
     exists p1, r = invoke host fuel stack h x p1)
  /\ (forall a, h = ptr_host a ->
     (returned r = true <-> host a x = Returns)).
Proof.
  intros Hbuf h r. subst r. cbn [invoke].
  rewrite handle_segv_unfold by done. cbn zeta. fold h.
  split; [|split].
  - intros Hsent. apply custom_cases in Hsent. rewrite Hsent. eauto.
  - intros Hcustom.
    destruct (custom h) eqn:E; [eauto|]. apply custom_cases in E. tauto.
  - intros a Ha. rewrite Ha.
    change (custom (ptr_host a)) with true. cbv iota.
    destruct fuel; cbn [invoke]; destruct (host a x); cbn;
      intuition congruence.
Qed.

Lemma fault_handler_returns_iff_delegate_returns_witness :
  buffer_ok armed_example
  /\ (returned (invoke test_host 1 [1; 2; 3] ptr_handle_segv SIGSEGV armed_example) = true
      <-> test_host 4096 SIGSEGV = Returns).
Proof.
  split; [exact armed_example_buffer_ok|].
  destruct (fault_handler_returns_iff_delegate_returns test_host 0 [1; 2; 3] SIGSEGV
              armed_example armed_example_buffer_ok) as (_ & _ & H).
  apply (H 4096). reflexivity.
Defined.

(** ** The exit status *)

Lemma lor_128_small x :
  0 <= x < 128 ->
  Z.lor (Z.shiftl 1 7) x = 128 + x /\ wait_status (Z.lor (Z.shiftl 1 7) x) = 128 + x.
Proof.
  intros Hx.
  assert (forallb (fun n => let y := Z.of_nat n in
                     (Z.lor (Z.shiftl 1 7) y =? 128 + y)
                     && (wait_status (Z.lor (Z.shiftl 1 7) y) =? 128 + y))
                  (seq 0 128) = true) as Hall by (vm_compute; reflexivity).
  rewrite forallb_forall in Hall.
  specialize (Hall (Z.to_nat x)). rewrite Z2Nat.id in Hall by lia.
  cbn zeta in Hall.
  assert (In (Z.to_nat x) (seq 0 128)) as Hin by (apply in_seq; lia).
  apply Hall in Hin. apply andb_true_iff in Hin as [H1 H2].
  split; lia.
Qed.

(** C3: when the fault handler ends the process because the saved handler
    is SIG_IGN or SIG_DFL, the status passed to [_exit] is (1 << 7) | x;
    for 0 <= x < 128 that is 128 + x, also as the parent reads it, and it
    is 139 for SIGSEGV. *)
Theorem exit_status_encodes_signal call stack x p :
  buffer_ok p ->
  original_segv_handler p = SIG_IGN \/ original_segv_handler p = SIG_DFL ->
  (exists p', handle_segv call stack x p = Halt (Exited (Z.lor (Z.shiftl 1 7) x)) p')
  /\ (0 <= x < 128 ->
      Z.lor (Z.shiftl 1 7) x = 128 + x
      /\ wait_status (Z.lor (Z.shiftl 1 7) x) = 128 + x)
  /\ Z.lor (Z.shiftl 1 7) SIGSEGV = 139.
Proof.
  intros Hbuf Hsent. split; [|split].
  - rewrite handle_segv_unfold by done. cbn zeta.
    apply custom_cases in Hsent. rewrite Hsent. eauto.
  - apply lor_128_small.
  - reflexivity.
Qed.

Lemma exit_status_encodes_signal_witness :
  (buffer_ok armed_bare /\ original_segv_handler armed_bare = SIG_DFL)
  /\ (exists p', handle_segv (invoke test_host 0 [1; 2; 3]) [1; 2; 3] SIGSEGV armed_bare
                 = Halt (Exited 139) p').
Proof.
  split; [split; [exact armed_bare_buffer_ok | reflexivity]|].
  destruct (exit_status_encodes_signal (invoke test_host 0 [1; 2; 3]) [1; 2; 3] SIGSEGV
              armed_bare armed_bare_buffer_ok (or_intror eq_refl)) as (H & _ & _).
  exact H.
Defined.

(** ** The backtrace buffer *)

(** C7: on every invocation of the fault handler the frames captured and
    written are the innermost ones of the call chain, at most TRACEBUFLEN
    = 64 of them; deeper chains are cut at 64, the buffer keeps its size,
    and the handler goes on to its branch: neither [backtrace] nor
    [backtrace_symbols_fd] leaves the buffer. *)
Theorem backtrace_depth_bounded call stack x p :
  buffer_ok p ->
  let h := original_segv_handler p in
  let p1 := after_backtrace stack p in
  TRACEBUFLEN = 64
  /\ (length (captured stack) <= 64)%nat
  /\ traces p1 = Z.of_nat (length stack) `min` 64
  /\ 0 <= traces p1 <= TRACEBUFLEN
  /\ take (Z.to_nat (traces p1)) (trace p1) = take 64 stack
  /\ buffer_ok p1
  /\ log p1 = log p ++ [EWrite STDERR_FILENO msg_received;
                        ESymbols STDERR_FILENO (take 64 stack);
                        EWrite STDERR_FILENO msg_end]
  /\ handle_segv call stack x p =
       if custom h
       then call h x (emit (ECall h x) (emit (EWrite STDERR_FILENO msg_calling) p1))
       else Halt (Exited (exit_status x)) (emit (EWrite STDERR_FILENO msg_quitting) p1).
Proof.
  intros Hbuf h p1. pose proof (captured_length stack) as Hcap.
  change (Z.to_nat TRACEBUFLEN) with 64%nat in Hcap.
  assert (length (captured stack) = length stack `min` 64)%nat as Hlen
    by (unfold captured; rewrite length_take; change (Z.to_nat TRACEBUFLEN) with 64%nat; lia).
  split; [reflexivity|]. split; [exact Hcap|].
  assert (traces p1 = Z.of_nat (length (captured stack))) as Htr by reflexivity.
  split; [rewrite Htr, Hlen; lia|].
  split; [rewrite Htr; change TRACEBUFLEN with 64; lia|].
  split.
  { rewrite Htr, Nat2Z.id. subst p1. cbn [after_backtrace trace emit set_traces set_trace].
    by rewrite take_app_length. }
  split; [by apply after_backtrace_buffer|].
  split; [apply after_backtrace_log|].
  by apply handle_segv_unfold.
Qed.

Lemma backtrace_depth_bounded_witness :
  buffer_ok booted
  /\ traces (after_backtrace (seq_deep 100) booted) = 64.
Proof.
  split; [exact booted_buffer_ok|].
  destruct (backtrace_depth_bounded (fun _ _ => ret tt) (seq_deep 100) SIGSEGV booted
              booted_buffer_ok) as (_ & _ & H & _).
  exact H.
Defined.

(** ** What is kept of the host's disposition *)

(** C10: of the host's SIGSEGV disposition, [set_segv] keeps the handler
    pointer only: whatever the mask and the flags of that disposition
    are, it leaves the same process, with the saved handler equal to the
    disposition's handler and the library's own disposition (empty mask,
    no flag) installed.  And when [handle_segv] delegates, it calls the
    saved pointer directly, with the disposition table as it was on
    entry: after [set_segv] has captured a function of the host, a fault
    calls that function while the disposition of SIGSEGV is still the
    library's, not the host's. *)
Theorem only_the_handler_pointer_is_kept x y stack mask flags p :
  (exists p',
     set_segv x p = Ret tt p'
     /\ set_segv x (with_segv_mask_flags mask flags p) = Ret tt p'
     /\ original_segv_handler p' = sa_handler (disposition p SIGSEGV)
     /\ disposition p' SIGSEGV = fault_action
     /\ stores_of (log p') = stores_of (log p) ++ [sa_handler (disposition p SIGSEGV)])
  /\ (buffer_ok p ->
      custom (original_segv_handler p) = true ->
      exists p1,
        (forall call, handle_segv call stack y p
                      = call (original_segv_handler p) y p1)
        /\ sigtab p1 = sigtab p)
  /\ (buffer_ok p ->
      custom (sa_handler (disposition p SIGSEGV)) = true ->
      exists p' p1,
        set_segv x (with_segv_mask_flags mask flags p) = Ret tt p'
        /\ (forall call, handle_segv call stack y p'
                         = call (sa_handler (disposition p SIGSEGV)) y p1)
        /\ disposition p1 SIGSEGV = fault_action).
Proof.
  assert (set_segv x (with_segv_mask_flags mask flags p) = Ret tt (armed_from p)) as Hsame.
  { rewrite set_segv_unfold. f_equal.
    unfold armed_from, with_segv_mask_flags.
    rewrite disposition_insert_eq. cbn [sa_handler].
    cbn [set_sigtab sigtab original_segv_handler trace traces log emit set_original].
    by rewrite insert_insert_eq. }
  assert (disposition (armed_from p) SIGSEGV = fault_action) as Hd.
  { unfold armed_from, disposition. cbn. by rewrite lookup_insert_eq. }
  split; [|split].
  - exists (armed_from p). split; [apply set_segv_unfold|]. split; [exact Hsame|].
    split; [reflexivity|]. split; [exact Hd|].
    unfold armed_from. cbn [log set_original emit set_sigtab].
    rewrite !stores_of_app. cbn. by rewrite app_nil_r.
  - intros Hbuf Hcustom. eexists. split.
    + intros call. rewrite handle_segv_unfold by done. cbn zeta.
      rewrite Hcustom. reflexivity.
    + reflexivity.
  - intros Hbuf Hcustom. exists (armed_from p). eexists. split; [exact Hsame|]. split.
    + intros call. rewrite handle_segv_unfold by done. cbn zeta.
      change (original_segv_handler (armed_from p))
        with (sa_handler (disposition p SIGSEGV)).
      rewrite Hcustom. reflexivity.
    + exact Hd.
Qed.

Lemma only_the_handler_pointer_is_kept_witness :
  (buffer_ok host_ready
   /\ custom (sa_handler (disposition host_ready SIGSEGV)) = true)
  /\ set_segv IPC_SIG (with_segv_mask_flags [SIGSEGV; IPC_SIG] SA_RESTART host_ready)
     = set_segv IPC_SIG host_ready
  /\ exists p' p1,
       set_segv IPC_SIG (with_segv_mask_flags [SIGSEGV; IPC_SIG] SA_RESTART host_ready)
       = Ret tt p'
       /\ (forall call, handle_segv call [1; 2; 3] SIGSEGV p'
                        = call (ptr_host 4096) SIGSEGV p1)
       /\ disposition p1 SIGSEGV = fault_action.
Proof.
  assert (buffer_ok host_ready) as Hb by reflexivity.
  split; [split; [exact Hb|reflexivity]|].
  destruct (only_the_handler_pointer_is_kept IPC_SIG SIGSEGV [1; 2; 3]
              [SIGSEGV; IPC_SIG] SA_RESTART host_ready)
    as ((p' & H1 & H2 & _) & _ & H3).
  split; [by rewrite H2, H1|].
  exact (H3 Hb eq_refl).
Defined.

(** ** The watchdog *)

Lemma time_t_id z : - 2 ^ 63 <= z <= TIME_MAX -> time_t z = z.
Proof.
  unfold time_t, TIME_MAX. intros Hz. rewrite Z.mod_small; lia.
Qed.

Lemma kills_of_sleeps sleeps : Forall is_sleep sleeps -> kills_of sleeps = [].
Proof.
  induction 1 as [|e l He _ IH]; [done|].
  destruct e; done.
Qed.

(** The loop leaves, at the first reading that has reached the deadline,
    having done nothing but sleep; until then it goes on. *)
Lemma child_loop_spec start clock p :
  - 2 ^ 63 <= start <= TIME_MAX - DELAY ->
  match child_loop start clock p with
  | Ret _ p' =>
      exists early t late sleeps,
        clock = early ++ t :: late
        /\ Forall (fun u => u < start + DELAY) early
        /\ start + DELAY <= t
        /\ Forall is_sleep sleeps
        /\ log p' = log p ++ sleeps
  | Fuel p' =>
      Forall (fun u => u < start + DELAY) clock
      /\ exists sleeps, Forall is_sleep sleeps /\ log p' = log p ++ sleeps
  | Halt _ _ => False
  end.
Proof.
  intros Hstart.
  assert (time_t (start + DELAY) = start + DELAY) as Hdl
    by (apply time_t_id; unfold DELAY, TIME_MAX in *; lia).
  revert p. induction clock as [|t clock IH]; intros p.
  - cbn. split; [constructor|]. exists []. split; [constructor|by rewrite app_nil_r].
  - cbn [child_loop]. rewrite Hdl. unfold bind.
    set (zzz := time_t (start + DELAY - t)).
    set (p1 := if 0 <? zzz then emit (ESleep (zzz mod 2 ^ 32)) p else p).
    assert ((if 0 <? zzz then sleep zzz else ret tt) p = Ret tt p1) as ->
      by (subst p1; destruct (0 <? zzz); reflexivity).
    assert (exists s, Forall is_sleep s /\ log p1 = log p ++ s) as (s & Hs & Hlog).
    { subst p1. destruct (0 <? zzz).
      - eexists [_]. split; [|reflexivity]. by repeat constructor.
      - exists []. split; [constructor|by rewrite app_nil_r]. }
    destruct (Z.ltb_spec t (start + DELAY)) as [Hlt|Hge].
    + specialize (IH p1). destruct (child_loop start clock p1) as [[] p'|e p'|p'].
      * destruct IH as (early & u & late & sleeps & -> & Hearly & Hu & Hsl & Hlog').
        exists (t :: early), u, late, (s ++ sleeps).
        split; [done|]. split; [by constructor|]. split; [done|].
        split; [by apply Forall_app|]. by rewrite Hlog', Hlog, app_assoc.
      * done.
      * destruct IH as (Hall & sleeps & Hsl & Hlog').
        split; [by constructor|]. exists (s ++ sleeps).
        split; [by apply Forall_app|]. by rewrite Hlog', Hlog, app_assoc.
    + cbn. exists [], t, clock, s. split; [done|]. split; [constructor|]. done.
Qed.

(** C4: whatever the clock reads and however short the sleeps were, the
    loop of the watchdog is left only at a reading that has reached the
    start time plus DELAY = 3 seconds, every reading before it being
    earlier; the handshake signal is then sent, once, as the last thing
    the watchdog does; as long as no reading has reached the deadline no
    signal is sent; a reading that reaches the deadline makes the
    watchdog return; and the child process that ran it then exits with
    status 0, without going on into [setup]. *)
Theorem watchdog_signals_after_full_delay ppid start clock p :
  - 2 ^ 63 <= start <= TIME_MAX - DELAY ->
  DELAY = 3
  /\ match child ppid (start :: clock) p with
     | Ret _ p' =>
         exists early t late sleeps,
           clock = early ++ t :: late
           /\ Forall (fun u => u < start + DELAY) early
           /\ start + DELAY <= t
           /\ Forall is_sleep sleeps
           /\ log p' = log p ++ sleeps ++ [EKill ppid IPC_SIG]
           /\ kills_of (log p') = kills_of (log p) ++ [(ppid, IPC_SIG)]
     | Fuel p' =>
         Forall (fun u => u < start + DELAY) clock
         /\ kills_of (log p') = kills_of (log p)
     | Halt _ _ => False
     end
  /\ (Exists (fun u => start + DELAY <= u) clock ->
      returned (child ppid (start :: clock) p) = true)
  /\ (forall p', child ppid (start :: clock) p = Ret tt p' ->
      setup 0 ppid (start :: clock) p = Halt (Exited 0) p').
Proof.
  intros Hstart. split; [reflexivity|].
  assert (forall A B C : Prop, A /\ B -> C -> A /\ B /\ C) as Hsplit by tauto.
  apply Hsplit;
    [|intros p' Hp'; unfold setup, bind; change (0 =? 0) with true; cbv beta iota;
      by rewrite Hp'].
  pose proof (child_loop_spec start clock p Hstart) as Hloop.
  cbn [child]. unfold bind.
  destruct (child_loop start clock p) as [[] p'|e p'|p']; [|done|].
  - split; [|done].
    destruct Hloop as (early & t & late & sleeps & -> & Hearly & Ht & Hsl & Hlog).
    exists early, t, late, sleeps. cbn [kill modify emit log].
    repeat (split; [done|]). split.
    + by rewrite Hlog, app_assoc.
    + rewrite Hlog, !kills_of_app, (kills_of_sleeps sleeps Hsl), app_nil_r.
      reflexivity.
  - destruct Hloop as (Hall & sleeps & Hsl & Hlog). split; [split|].
    + done.
    + by rewrite Hlog, kills_of_app, (kills_of_sleeps sleeps Hsl), app_nil_r.
    + intros Hex. apply Exists_exists in Hex as (u & Hin & Hu).
      rewrite Forall_forall in Hall. specialize (Hall u Hin). lia.
Qed.

Lemma watchdog_signals_after_full_delay_witness :
  - 2 ^ 63 <= 100 <= TIME_MAX - DELAY
  /\ returned (child 77 [100; 100; 101; 102; 102; 103; 104] init_process) = true.
Proof.
  assert (- 2 ^ 63 <= 100 <= TIME_MAX - DELAY) as Hstart by (vm_compute; split; discriminate).
  split; [exact Hstart|].
  destruct (watchdog_signals_after_full_delay 77 100 [100; 101; 102; 102; 103; 104]
              init_process Hstart) as (_ & _ & H & _).
  apply H. apply Exists_exists. exists 103. split; [|vm_compute; discriminate].
  repeat constructor.
Defined.

(** ** Delivery of the handshake signal *)

Lemma disposition_insert sig sig' act p :
  disposition (set_sigtab (<[sig := act]> (sigtab p)) p) sig' =
    if decide (sig = sig') then act else disposition p sig'.
Proof.
  case_decide as Heq.
  - subst. apply disposition_insert_eq.
  - by apply disposition_insert_ne.
Qed.

Lemma reset_handler_disposition sig sig' p :
  disposition (reset_handler sig p) sig' =
    if decide (sig = sig')
    then (if has_flag SA_RESETHAND (sa_flags (disposition p sig))
          then {| sa_handler := SIG_DFL; sa_mask := sa_mask (disposition p sig);
                  sa_flags := sa_flags (disposition p sig) |}
          else disposition p sig)
    else disposition p sig'.
Proof.
  unfold reset_handler.
  destruct (has_flag SA_RESETHAND (sa_flags (disposition p sig))).
  - apply disposition_insert.
  - case_decide; by subst.
Qed.

Lemma reset_handler_frame sig p :
  log (reset_handler sig p) = log p
  /\ original_segv_handler (reset_handler sig p) = original_segv_handler p
  /\ trace (reset_handler sig p) = trace p.
Proof.
  unfold reset_handler.
  by destruct (has_flag SA_RESETHAND (sa_flags (disposition p sig))).
Qed.

Lemma reset_handler_handler sig sig' p :
  sa_handler (disposition (reset_handler sig p) sig') = SIG_DFL
  \/ disposition (reset_handler sig p) sig' = disposition p sig'.
Proof.
  rewrite reset_handler_disposition.
  case_decide; [|by right]. subst.
  destruct (has_flag SA_RESETHAND (sa_flags (disposition p sig'))); [by left|by right].
Qed.

Lemma invoke_host host fuel stack a x p :
  invoke host fuel stack (ptr_host a) x p =
    match host a x with
    | Returns => Ret tt p
    | Exits status => Halt (Exited status) p
    | NeverReturns => Halt Diverted p
    end.
Proof. destruct fuel; cbn; by destruct (host a x). Qed.

Lemma invoke_set_segv host fuel stack x p :
  invoke host fuel stack ptr_set_segv x p = Ret tt (armed_from p).
Proof. by destruct fuel. Qed.

Lemma final_invoke_host host fuel stack a x p :
  final (invoke host fuel stack (ptr_host a) x p) = p
  /\ forall q, invoke host fuel stack (ptr_host a) x p <> Fuel q.
Proof. rewrite invoke_host. by destruct (host a x). Qed.

(** The first handshake signal runs [set_segv], after the kernel has put
    the default disposition back. *)
Lemma handshake_step host fuel s p :
  sa_handler (disposition p IPC_SIG) = ptr_set_segv ->
  step host fuel (Signal IPC_SIG s) p = Ret tt (armed_from (reset_handler IPC_SIG p)).
Proof.
  intros Hh. cbn [step]. change (valid_signal IPC_SIG) with true. cbv iota.
  unfold deliver. rewrite Hh. apply invoke_set_segv.
Qed.

Lemma armed_from_disposition sig p :
  disposition (armed_from p) sig =
    if decide (SIGSEGV = sig) then fault_action else disposition p sig.
Proof.
  unfold armed_from, disposition. cbn [sigtab set_original emit set_sigtab].
  case_decide as Heq.
  - subst. by rewrite lookup_insert_eq.
  - by rewrite lookup_insert_ne.
Qed.

(** ** The invariants are kept *)

Lemma init_dormant : dormant init_process.
Proof.
  assert (forall sig, disposition init_process sig = default_disposition) as H.
  { intros sig. unfold disposition, init_process. cbn. by rewrite lookup_empty. }
  split; intros; rewrite ?H; done.
Qed.

Lemma host_ptr_not_lib h : is_lib (host_ptr h) = false.
Proof. by destruct h. Qed.

Lemma dormant_reset_handler sig p : dormant p -> dormant (reset_handler sig p).
Proof.
  intros [Ht Hi Hr]. split.
  - intros sig' Hne. destruct (reset_handler_handler sig sig' p) as [-> | ->]; auto.
  - destruct (reset_handler_handler sig IPC_SIG p) as [-> | ->]; [discriminate|done].
  - rewrite reset_handler_disposition. case_decide as Heq; [|done]. subst.
    destruct (has_flag SA_RESETHAND (sa_flags (disposition p IPC_SIG))) eqn:E;
      [discriminate|by rewrite E].
Qed.

Lemma dormant_host_sigaction sig h mask flags p :
  dormant p ->
  dormant (set_sigtab (<[sig := {| sa_handler := host_ptr h; sa_mask := mask;
                                  sa_flags := flags |}]> (sigtab p)) p).
Proof.
  intros [Ht Hi Hr]. pose proof (host_ptr_not_lib h) as Hh. split.
  - intros sig' Hne. rewrite disposition_insert. case_decide; [done|auto].
  - rewrite disposition_insert. case_decide; [|done].
    cbn [sa_handler]. intros E. by rewrite E in Hh.
  - rewrite disposition_insert. case_decide; [|done].
    cbn [sa_handler]. intros E. by rewrite E in Hh.
Qed.

Lemma host_sigaction_step host fuel sig h mask flags p :
  let act := {| sa_handler := host_ptr h; sa_mask := mask; sa_flags := flags |} in
  step host fuel (HostSigaction sig h mask flags) p = Ret tt p
  \/ step host fuel (HostSigaction sig h mask flags) p
     = Ret tt (set_sigtab (<[sig := act]> (sigtab p)) p).
Proof.
  cbn [step kernel_sigaction]. destruct (catchable sig); [by right|by left].
Qed.

(** A signal that meets a dormant process either leaves the library
    untouched, or is the handshake. *)
Lemma deliver_dormant host fuel sig forced stack p :
  dormant p ->
  let r := deliver host fuel sig forced stack p in
  (dormant (final r) /\ log (final r) = log p
   /\ original_segv_handler (final r) = original_segv_handler p
   /\ trace (final r) = trace p /\ no_fuel r)
  \/ (sig = IPC_SIG /\ sa_handler (disposition p IPC_SIG) = ptr_set_segv
      /\ r = Ret tt (armed_from (reset_handler IPC_SIG p))).
Proof.
  intros Hd r. subst r. unfold deliver.
  destruct (sa_handler (disposition p sig)) eqn:Hh.
  - left. unfold take_default_action. by destruct (default_action sig).
  - left. by destruct forced.
  - exfalso. destruct (decide (sig = IPC_SIG)) as [->|Hne].
    + by apply (dormant_ipc p Hd).
    + pose proof (dormant_table p Hd sig Hne) as H. by rewrite Hh in H.
  - destruct (decide (sig = IPC_SIG)) as [->|Hne].
    + right. by rewrite invoke_set_segv.
    + pose proof (dormant_table p Hd sig Hne) as H. by rewrite Hh in H.
  - left. destruct (final_invoke_host host fuel stack a sig (reset_handler sig p))
      as [-> Hnf].
    destruct (reset_handler_frame sig p) as (-> & -> & ->).
    split; [by apply dormant_reset_handler|]. done.
Qed.

Lemma step_dormant host fuel i p :
  dormant p ->
  let r := step host fuel i p in
  (dormant (final r) /\ log (final r) = log p
   /\ original_segv_handler (final r) = original_segv_handler p
   /\ trace (final r) = trace p /\ no_fuel r)
  \/ (exists s, i = Signal IPC_SIG s
      /\ sa_handler (disposition p IPC_SIG) = ptr_set_segv
      /\ r = Ret tt (armed_from (reset_handler IPC_SIG p))).
Proof.
  intros Hd. destruct i as [stack|sig stack|sig h mask flags]; cbn zeta.
  - cbn [step].
    destruct (deliver_dormant host fuel SIGSEGV true stack p Hd) as [H|(H & _)];
      [by left|discriminate H].
  - cbn [step]. destruct (valid_signal sig); [|by left].
    destruct (deliver_dormant host fuel sig false stack p Hd) as [H|(-> & H)];
      [by left|].
    right. by exists stack.
  - left. destruct (host_sigaction_step host fuel sig h mask flags p) as [-> | ->].
    + done.
    + split; [by apply dormant_host_sigaction|done].
Qed.

Lemma after_backtrace_frame stack p :
  sigtab (after_backtrace stack p) = sigtab p
  /\ original_segv_handler (after_backtrace stack p) = original_segv_handler p
  /\ stores_of (log (after_backtrace stack p)) = stores_of (log p).
Proof.
  split; [done|]. split; [done|].
  rewrite after_backtrace_log, stores_of_app. cbn. by rewrite app_nil_r.
Qed.

Lemma armed_table_frame h p q :
  armed h p ->
  stores_of (log q) = stores_of (log p) ->
  original_segv_handler q = original_segv_handler p ->
  (forall sig, sa_handler (disposition q sig) <> ptr_set_segv) ->
  buffer_ok q ->
  armed h q.
Proof.
  intros [Hs Ho Hh Ht Hb] Hs' Ho' Ht' Hb'. split; [by rewrite Hs'|by rewrite Ho'|done..].
Qed.

Lemma armed_frame h p q :
  armed h p ->
  stores_of (log q) = stores_of (log p) ->
  original_segv_handler q = original_segv_handler p ->
  (forall sig, sa_handler (disposition q sig) = SIG_DFL
               \/ disposition q sig = disposition p sig) ->
  buffer_ok q ->
  armed h q.
Proof.
  intros Ha Hs' Ho' Ht' Hb'. apply (armed_table_frame h p); try done.
  intros sig. destruct (Ht' sig) as [-> | ->];
    [discriminate|apply (armed_table h p Ha)].
Qed.

Lemma armed_reset_handler h sig p : armed h p -> armed h (reset_handler sig p).
Proof.
  intros Ha. destruct (reset_handler_frame sig p) as (Hl & Ho & Htr).
  apply (armed_frame h p); [done|by rewrite Hl|done| |].
  - intros sig'. apply reset_handler_handler.
  - unfold buffer_ok. rewrite Htr. apply (armed_buffer h p Ha).
Qed.

(** The fault handler run from an armed process: it reads the saved
    handler, and neither stores to it nor touches a disposition. *)
Lemma handle_segv_armed host fuel stack x h p :
  armed h p ->
  let r := handle_segv (invoke host fuel stack) stack x p in
  armed h (final r) /\ no_fuel r.
Proof.
  intros Ha. cbn zeta. rewrite handle_segv_unfold by apply (armed_buffer h p Ha).
  cbn zeta. rewrite (armed_saved h p Ha).
  destruct (after_backtrace_frame stack p) as (Ht & Ho & Hs).
  assert (forall q, sigtab q = sigtab (after_backtrace stack p) ->
            original_segv_handler q = original_segv_handler (after_backtrace stack p) ->
            stores_of (log q) = stores_of (log (after_backtrace stack p)) ->
            trace q = trace (after_backtrace stack p) ->
            armed h q) as Hframe.
  { intros q Ht' Ho' Hs' Hb'. apply (armed_frame h p); [done|congruence|congruence| |].
    - intros sig. right. unfold disposition. congruence.
    - unfold buffer_ok. rewrite Hb'.
      apply after_backtrace_buffer, (armed_buffer h p Ha). }
  destruct (custom h) eqn:Hc.
  - pose proof (armed_host h p Ha) as Hh.
    destruct h as [| | | |a]; try discriminate.
    match goal with |- context [invoke host fuel stack (ptr_host a) x ?q] =>
      destruct (final_invoke_host host fuel stack a x q) as [-> Hnf] end.
    split; [|done]. apply Hframe; try done.
    cbn [log emit]. rewrite !stores_of_app. cbn. by rewrite !app_nil_r.
  - split; [|done]. cbn [final]. apply Hframe; try done.
    cbn [log emit]. rewrite !stores_of_app. cbn. by rewrite !app_nil_r.
Qed.

Lemma deliver_armed host fuel sig forced stack h p :
  armed h p ->
  let r := deliver host (S fuel) sig forced stack p in
  armed h (final r) /\ no_fuel r.
Proof.
  intros Ha. cbn zeta. unfold deliver.
  destruct (sa_handler (disposition p sig)) eqn:Hh.
  - unfold take_default_action. by destruct (default_action sig).
  - by destruct forced.
  - cbn [invoke]. by apply handle_segv_armed, armed_reset_handler.
  - by destruct (armed_table h p Ha sig).
  - destruct (final_invoke_host host (S fuel) stack a sig (reset_handler sig p))
      as [-> Hnf].
    split; [by apply armed_reset_handler|done].
Qed.

Lemma step_armed host fuel i h p :
  armed h p ->
  let r := step host (S fuel) i p in
  armed h (final r) /\ no_fuel r.
Proof.
  intros Ha. destruct i as [stack|sig stack|sig hh mask flags]; cbn zeta.
  - by apply deliver_armed.
  - cbn [step]. destruct (valid_signal sig); [by apply deliver_armed|done].
  - destruct (host_sigaction_step host (S fuel) sig hh mask flags p) as [-> | ->];
      [done|].
    split; [|done]. cbn [final]. apply (armed_table_frame h p); try done.
    + intros sig'. rewrite disposition_insert. case_decide.
      * cbn [sa_handler]. pose proof (host_ptr_not_lib hh) as Hl.
        intros E. by rewrite E in Hl.
      * apply (armed_table h p Ha).
    + apply (armed_buffer h p Ha).
Qed.

Lemma run_cons host fuel i ins p :
  run host fuel (i :: ins) p =
    match step host fuel i p with
    | Ret _ p' => run host fuel ins p'
    | Halt e p' => Halt e p'
    | Fuel p' => Fuel p'
    end.
Proof. reflexivity. Qed.

Lemma run_armed host fuel ins h p :
  armed h p ->
  let r := run host (S fuel) ins p in
  armed h (final r) /\ no_fuel r.
Proof.
  revert p. induction ins as [|i ins IH]; intros p Ha; cbn zeta.
  - done.
  - rewrite run_cons. destruct (step_armed host fuel i h p Ha) as [Ha' Hnf].
    destruct (step host (S fuel) i p) as [[] p'|e p'|p'].
    + by apply IH.
    + done.
    + by destruct (Hnf p').
Qed.

Lemma handshake_arms p :
  unarmed p ->
  sa_handler (disposition p IPC_SIG) = ptr_set_segv ->
  armed (sa_handler (disposition p SIGSEGV)) (armed_from (reset_handler IPC_SIG p)).
Proof.
  intros (Hd & Hs & Hb) Hh.
  destruct (reset_handler_frame IPC_SIG p) as (Hl & Ho & Htr).
  assert (disposition (reset_handler IPC_SIG p) SIGSEGV = disposition p SIGSEGV) as Hsegv
    by (rewrite reset_handler_disposition; by rewrite decide_False).
  split.
  - unfold armed_from. cbn [log set_original emit set_sigtab].
    rewrite !stores_of_app, Hl, Hs, Hsegv. reflexivity.
  - unfold armed_from. cbn [original_segv_handler set_original]. by rewrite Hsegv.
  - by apply (dormant_table p Hd).
  - intros sig. rewrite armed_from_disposition. case_decide as Hseg; [discriminate|].
    rewrite reset_handler_disposition. case_decide as Hipc.
    + subst sig. rewrite (dormant_reset p Hd Hh). discriminate.
    + pose proof (dormant_table p Hd sig) as Hlib. intros E.
      rewrite E in Hlib. by specialize (Hlib (not_eq_sym Hipc)).
  - unfold buffer_ok, armed_from.
    cbn [trace set_original emit set_sigtab]. by rewrite Htr.
Qed.

Lemma step_unarmed host fuel i p :
  unarmed p ->
  let r := step host (S fuel) i p in
  (unarmed (final r) \/ armed (sa_handler (disposition p SIGSEGV)) (final r))
  /\ no_fuel r.
Proof.
  intros Hu. pose proof Hu as (Hd & Hs & Hb). cbn zeta.
  destruct (step_dormant host (S fuel) i p Hd)
    as [(Hd' & Hl & _ & Htr & Hnf)|(s & -> & Hh & ->)].
  - split; [left|done]. split; [done|]. split; [by rewrite Hl|].
    unfold buffer_ok. by rewrite Htr.
  - split; [right; by apply handshake_arms|done].
Qed.

Lemma run_unarmed host fuel ins p :
  unarmed p ->
  let r := run host (S fuel) ins p in
  (unarmed (final r) \/ exists h, armed h (final r)) /\ no_fuel r.
Proof.
  revert p. induction ins as [|i ins IH]; intros p Hu; cbn zeta.
  - split; [by left|done].
  - rewrite run_cons. destruct (step_unarmed host fuel i p Hu) as [Hcase Hnf].
    destruct (step host (S fuel) i p) as [[] p'|e p'|p'].
    + destruct Hcase as [Hu'|Ha].
      * by apply IH.
      * destruct (run_armed host fuel ins _ p' Ha) as [Ha' Hnf'].
        split; [right; eauto|done].
    + split; [|done]. destruct Hcase; [by left|right; eauto].
    + by destruct (Hnf p').
Qed.

(** ** The handshake, once *)

(** C5, as the specification states it, fails: the second handshake signal
    meets the default disposition, and the default action of SIGUNUSED
    ends the process, which the first delivery had left running. *)
Lemma second_handshake_signal_ends_process :
  run test_host 1 [Signal IPC_SIG []] booted = Ret tt armed_bare
  /\ run test_host 1 [Signal IPC_SIG []; Signal IPC_SIG []] booted
     = Halt (Killed IPC_SIG) armed_bare.
Proof. split; vm_compute; reflexivity. Qed.

(** C5, amended: [setup] installs the handshake handler with SA_RESETHAND;
    the first delivery of the handshake signal puts the default
    disposition back and runs the handler, which stores the saved handler
    once; a second delivery does not run it again: it changes nothing in
    the process, neither the saved handler nor any disposition, and takes
    the default action of the signal, which ends the process; and no run
    from a process in which the handshake has not happened stores the
    saved handler more than once. *)
Theorem handshake_handler_runs_once host fuel pid ppid clock s1 s2 p0 :
  pid <> 0 ->
  exists p,
    setup pid ppid clock p0 = Ret tt p
    /\ disposition p IPC_SIG = handshake_action
    /\ has_flag SA_RESETHAND (sa_flags handshake_action) = true
    /\ forall q,
         disposition q IPC_SIG = handshake_action ->
         exists q1,
           step host fuel (Signal IPC_SIG s1) q = Ret tt q1
           /\ sa_handler (disposition q1 IPC_SIG) = SIG_DFL
           /\ stores_of (log q1)
              = stores_of (log q) ++ [sa_handler (disposition q SIGSEGV)]
           /\ step host fuel (Signal IPC_SIG s2) q1 = Halt (Killed IPC_SIG) q1
           /\ forall ins,
                unarmed q ->
                (length (stores_of (log (final (run host (S fuel) ins q)))) <= 1)%nat.
Proof.
  intros Hpid. eexists. split; [|split; [|split]].
  - unfold setup, bind. apply Z.eqb_neq in Hpid. rewrite Hpid. reflexivity.
  - unfold disposition. cbn. by rewrite lookup_insert_eq.
  - reflexivity.
  - intros q Hq. eexists. split; [|split; [|split; [|split]]].
    + apply handshake_step. by rewrite Hq.
    + rewrite armed_from_disposition. rewrite decide_False by discriminate.
      rewrite reset_handler_disposition, decide_True by done.
      rewrite Hq. reflexivity.
    + unfold armed_from. cbn [log set_original emit set_sigtab].
      rewrite !stores_of_app. cbn. rewrite app_nil_r.
      destruct (reset_handler_frame IPC_SIG q) as (-> & _ & _).
      rewrite reset_handler_disposition, decide_False by discriminate.
      reflexivity.
    + cbn [step]. change (valid_signal IPC_SIG) with true. cbv iota.
      unfold deliver. rewrite armed_from_disposition.
      rewrite decide_False by discriminate.
      rewrite reset_handler_disposition, decide_True by done.
      rewrite Hq. reflexivity.
    + intros ins Hu.
      destruct (run_unarmed host fuel ins q Hu) as [[(_ & -> & _)|(h' & Ha')] _].
      * cbn. lia.
      * rewrite (armed_stores h' _ Ha'). cbn. lia.
Qed.

Lemma handshake_handler_runs_once_witness :
  1234 <> 0
  /\ step test_host 1 (Signal IPC_SIG []) armed_bare = Halt (Killed IPC_SIG) armed_bare.
Proof.
  split; [discriminate|].
  destruct (handshake_handler_runs_once test_host 1 1234 1 [] [] [] init_process)
    as (p & Hp & Hd & _ & H); [discriminate|].
  destruct (H booted) as (q1 & H1 & _ & _ & H2 & _).
  { vm_compute. reflexivity. }
  assert (q1 = armed_bare) as <-.
  { assert (step test_host 1 (Signal IPC_SIG []) booted = Ret tt armed_bare) as H1'
      by (vm_compute; reflexivity).
    congruence. }
  exact H2.
Defined.

(** ** The saved handler over a run *)

(** Between whole deliveries: the saved handler is written once, by the
    handshake handler, which takes the old SIGSEGV disposition from the
    very [sigaction] call that installs the new one and stores its
    handler; whatever comes after the handshake handler has returned
    (faults, signals, the host changing dispositions), the saved handler
    stays the handler the host had for SIGSEGV at the handshake and no
    second store is made; and no run from a process that was not armed
    stores more than once.  A signal that interrupts the handshake
    handler itself is not among the inputs of [run]: see
    [set_segv_interrupted]. *)
Theorem saved_handler_written_once host fuel s ins ins' p :
  unarmed p ->
  sa_handler (disposition p IPC_SIG) = ptr_set_segv ->
  let h := sa_handler (disposition p SIGSEGV) in
  let p1 := armed_from (reset_handler IPC_SIG p) in
  let r := run host (S fuel) (Signal IPC_SIG s :: ins) p in
  step host (S fuel) (Signal IPC_SIG s) p = Ret tt p1
  /\ log p1 = log p ++ [ESigaction SIGSEGV fault_action; EStore h]
  /\ original_segv_handler p1 = h
  /\ stores_of (log (final r)) = [h]
  /\ original_segv_handler (final r) = h
  /\ no_fuel r
  /\ (length (stores_of (log (final (run host (S fuel) ins' p)))) <= 1)%nat.
Proof.
  intros Hu Hh h p1 r.
  pose proof (handshake_step host (S fuel) s p Hh) as Hstep.
  pose proof (handshake_arms p Hu Hh) as Ha.
  destruct (reset_handler_frame IPC_SIG p) as (Hl & Ho & Htr).
  assert (disposition (reset_handler IPC_SIG p) SIGSEGV = disposition p SIGSEGV) as Hsegv
    by (rewrite reset_handler_disposition; by rewrite decide_False).
  split; [exact Hstep|]. split.
  { subst p1. unfold armed_from. cbn [log set_original emit set_sigtab].
    by rewrite Hl, Hsegv, <- app_assoc. }
  split.
  { subst p1. unfold armed_from. cbn [original_segv_handler set_original].
    by rewrite Hsegv. }
  assert (armed h (final r) /\ no_fuel r) as [Hfin Hnf].
  { subst r. rewrite run_cons, Hstep. by apply run_armed. }
  split; [apply (armed_stores h _ Hfin)|].
  split; [apply (armed_saved h _ Hfin)|].
  split; [exact Hnf|].
  destruct (run_unarmed host fuel ins' p Hu) as [[(_ & -> & _)|(h' & Ha')] _].
  - cbn. lia.
  - rewrite (armed_stores h' _ Ha'). cbn. lia.
Qed.

Lemma booted_dormant : dormant booted.
Proof.
  assert (forall sig, disposition booted sig
            = if decide (IPC_SIG = sig) then handshake_action else default_disposition)
    as H.
  { intros sig. unfold disposition, booted. cbn.
    case_decide as E.
    - subst. by rewrite lookup_insert_eq.
    - rewrite lookup_insert_ne by done. by rewrite lookup_empty. }
  split.
  - intros sig Hne. rewrite H. by rewrite decide_False.
  - by rewrite H.
  - intros _. by rewrite H.
Qed.

Lemma host_ready_unarmed : unarmed host_ready.
Proof.
  split; [|split; reflexivity].
  change host_ready with
    (set_sigtab (<[SIGSEGV := {| sa_handler := host_ptr (HFunction 4096);
                                sa_mask := []; sa_flags := 0 |}]> (sigtab booted)) booted).
  apply dormant_host_sigaction, booted_dormant.
Qed.

Lemma saved_handler_written_once_witness :
  (unarmed host_ready /\ sa_handler (disposition host_ready IPC_SIG) = ptr_set_segv)
  /\ original_segv_handler
       (final (run returning_host 1
                 [Signal IPC_SIG []; Fault [1; 2; 3];
                  HostSigaction SIGSEGV HDefault [] 0; Signal IPC_SIG []]
                 host_ready))
     = ptr_host 4096.
Proof.
  split; [split; [exact host_ready_unarmed | reflexivity]|].
  destruct (saved_handler_written_once returning_host 0 []
              [Fault [1; 2; 3]; HostSigaction SIGSEGV HDefault [] 0; Signal IPC_SIG []]
              [] host_ready host_ready_unarmed eq_refl)
    as (_ & _ & _ & _ & H & _).
  exact H.
Defined.

(** ** Repeated faults *)





(** ** A failed fork *)

Lemma run_dormant host fuel ins p :
  dormant p ->
  Forall (fun i => is_handshake i = false) ins ->
  let r := run host fuel ins p in
  dormant (final r) /\ log (final r) = log p
  /\ original_segv_handler (final r) = original_segv_handler p.
Proof.
  intros Hd Hins. revert p Hd.
  induction Hins as [|i ins Hi _ IH]; intros p Hd; cbn zeta.
  - done.
  - rewrite run_cons.
    destruct (step_dormant host fuel i p Hd)
      as [(Hd' & Hl & Ho & _ & Hnf)|(s & -> & _)].
    + destruct (step host fuel i p) as [[] p'|e p'|p'].
      * cbn [final] in *. rewrite <- Hl, <- Ho. by apply IH.
      * done.
      * done.
    + cbn in Hi. by rewrite bool_decide_eq_true_2 in Hi.
Qed.

(** C9, as the specification states it, fails: after a failed fork the
    handshake handler is installed all the same, and a handshake signal
    that reaches the host arms the fault handler. *)
Lemma failed_fork_still_armable :
  final (setup (-1) 1 [] init_process) = booted
  /\ disposition (final (run test_host 1 [Signal IPC_SIG []] booted)) SIGSEGV
     = fault_action
  /\ installs_of (log (final (run test_host 1 [Signal IPC_SIG []] booted)))
     = [IPC_SIG; SIGSEGV].
Proof. repeat split. Qed.

(** C9, amended: when the fork fails, [setup] takes no error action (it
    writes nothing and does not exit; it returns to the host) and leaves
    every disposition but the one of the handshake signal as it was; it
    does install the handshake handler, as the parent of a successful
    fork does.  As long as no handshake signal
    is delivered to the host, the library does nothing more: it installs
    no disposition, the saved handler is not written and the fault
    handler is installed for no signal. *)
Theorem failed_fork_leaves_interception_unarmed host fuel ppid clock ins p0 :
  dormant p0 ->
  Forall (fun i => is_handshake i = false) ins ->
  exists p,
    setup (-1) ppid clock p0 = Ret tt p
    /\ log p = log p0 ++ [ESigaction IPC_SIG handshake_action]
    /\ writes_of (log p) = writes_of (log p0)
    /\ disposition p IPC_SIG = handshake_action
    /\ (forall sig, sig <> IPC_SIG -> disposition p sig = disposition p0 sig)
    /\ (forall pid, pid <> 0 ->
        setup pid ppid clock p0 = setup (-1) ppid clock p0)
    /\ let r := run host fuel ins p in
       log (final r) = log p
       /\ original_segv_handler (final r) = original_segv_handler p0
       /\ forall sig, sa_handler (disposition (final r) sig) <> ptr_handle_segv.
Proof.
  intros Hd Hins.
  set (p := emit (ESigaction IPC_SIG handshake_action)
              (set_sigtab (<[IPC_SIG := handshake_action]> (sigtab p0)) p0)).
  assert (disposition p IPC_SIG = handshake_action) as Hipc
    by apply disposition_insert_eq.
  assert (forall sig, sig <> IPC_SIG -> disposition p sig = disposition p0 sig) as Hother
    by (intros sig Hne; by apply disposition_insert_ne).
  assert (dormant p) as Hdp.
  { split.
    - intros sig Hne. rewrite Hother by done. by apply (dormant_table p0 Hd).
    - by rewrite Hipc.
    - by rewrite Hipc. }
  exists p. split; [reflexivity|]. split; [reflexivity|]. split.
  { cbn [log p emit]. unfold writes_of. rewrite omap_app. cbn. by rewrite app_nil_r. }
  split; [exact Hipc|]. split; [exact Hother|]. split.
  { intros pid Hpid. unfold setup, bind. apply Z.eqb_neq in Hpid. by rewrite Hpid. }
  destruct (run_dormant host fuel ins p Hdp Hins) as (Hd' & Hl & Ho).
  split; [exact Hl|]. split; [exact Ho|].
  intros sig E. destruct (decide (sig = IPC_SIG)) as [->|Hne].
  - by apply (dormant_ipc _ Hd').
  - pose proof (dormant_table _ Hd' sig Hne) as Hlib. by rewrite E in Hlib.
Qed.

Lemma failed_fork_leaves_interception_unarmed_witness :
  (dormant init_process
   /\ Forall (fun i => is_handshake i = false)
        [HostSigaction SIGSEGV (HFunction 4096) [] 0; Signal 10 []; Fault [1; 2; 3]])
  /\ log (final (run test_host 1
                   [HostSigaction SIGSEGV (HFunction 4096) [] 0; Signal 10 [];
                    Fault [1; 2; 3]]
                   booted))
     = [ESigaction IPC_SIG handshake_action].
Proof.
  assert (Forall (fun i => is_handshake i = false)
            [HostSigaction SIGSEGV (HFunction 4096) [] 0; Signal 10 []; Fault [1; 2; 3]])
    as Hins by (repeat constructor).
  split; [split; [exact init_dormant | exact Hins]|].
  destruct (failed_fork_leaves_interception_unarmed test_host 1 1 [] _ init_process
              init_dormant Hins) as (p & Hp & Hlog & _ & _ & _ & _ & Hrun & _).
  assert (setup (-1) 1 [] init_process = Ret tt booted) as Hb by reflexivity.
  assert (p = booted) as -> by congruence.
  rewrite Hrun, Hlog. reflexivity.
Defined.

(** * Further properties of the code *)

(** ** The sleeps of the watchdog *)

Lemma emit_all_log es p : log (emit_all es p) = log p ++ es.
Proof.
  revert p. induction es as [|e es IH]; intros p.
  - cbn. by rewrite app_nil_r.
  - change (emit_all (e :: es) p) with (emit_all es (emit e p)).
    rewrite IH. cbn [log emit]. by rewrite <- app_assoc.
Qed.

Lemma child_loop_sleeps start early t late p :
  0 <= start <= TIME_MAX - DELAY ->
  Forall (fun u => start <= u < start + DELAY) early ->
  start + DELAY <= t <= TIME_MAX ->
  child_loop start (early ++ t :: late) p =
    Ret tt (emit_all (map (fun u => ESleep (start + DELAY - u)) early) p).
Proof.
  intros Hstart Hearly Ht.
  assert (time_t (start + DELAY) = start + DELAY) as Hdl
    by (apply time_t_id; unfold DELAY, TIME_MAX in *; lia).
  revert p. induction Hearly as [|u early Hu _ IH]; intros p.
  - cbn [app child_loop]. rewrite Hdl, time_t_id
      by (unfold DELAY, TIME_MAX in *; lia).
    unfold bind.
    destruct (Z.ltb_spec 0 (start + DELAY - t)) as [Hlt|_]; [lia|].
    cbn. destruct (Z.ltb_spec t (start + DELAY)) as [Hlt|_]; [lia|]. reflexivity.
  - cbn [app child_loop map]. rewrite Hdl, time_t_id
      by (unfold DELAY, TIME_MAX in *; lia).
    unfold bind.
    destruct (Z.ltb_spec 0 (start + DELAY - u)) as [_|Hge]; [|lia].
    cbn [sleep modify]. rewrite Z.mod_small by (unfold DELAY in *; lia).
    destruct (Z.ltb_spec u (start + DELAY)) as [_|Hge]; [|lia].
    rewrite IH. reflexivity.
Qed.

(** X1: with a clock that starts at a time of the epoch and does not run
    backwards, the watchdog asks, at each reading before the deadline,
    for a sleep of exactly the interval that remains (between 1 second
    and DELAY), asks for no sleep at the reading that has reached the
    deadline, and then sends the signal; it does nothing else. *)
Theorem watchdog_sleeps_remaining_interval ppid start early t late p :
  0 <= start <= TIME_MAX - DELAY ->
  Forall (fun u => start <= u < start + DELAY) early ->
  start + DELAY <= t <= TIME_MAX ->
  child ppid (start :: early ++ t :: late) p =
    Ret tt (emit (EKill ppid IPC_SIG)
              (emit_all (map (fun u => ESleep (start + DELAY - u)) early) p))
  /\ log (final (child ppid (start :: early ++ t :: late) p))
     = log p ++ map (fun u => ESleep (start + DELAY - u)) early ++ [EKill ppid IPC_SIG]
  /\ Forall (fun u => 1 <= start + DELAY - u <= DELAY) early.
Proof.
  intros Hstart Hearly Ht.
  assert (child ppid (start :: early ++ t :: late) p =
            Ret tt (emit (EKill ppid IPC_SIG)
                      (emit_all (map (fun u => ESleep (start + DELAY - u)) early) p)))
    as Hchild by (cbn [child]; unfold bind; by rewrite child_loop_sleeps).
  split; [exact Hchild|]. split.
  - rewrite Hchild. cbn [final log emit]. by rewrite emit_all_log, <- app_assoc.
  - eapply Forall_impl; [exact Hearly|]. cbn. intros u Hu. unfold DELAY in *. lia.
Qed.

Lemma watchdog_sleeps_remaining_interval_witness :
  (0 <= 100 <= TIME_MAX - DELAY
   /\ Forall (fun u => 100 <= u < 100 + DELAY) [100; 101; 102; 102]
   /\ 100 + DELAY <= 103 <= TIME_MAX)
  /\ log (final (child 77 [100; 100; 101; 102; 102; 103; 104] init_process))
     = [ESleep 3; ESleep 2; ESleep 1; ESleep 1; EKill 77 IPC_SIG].
Proof.
  assert (0 <= 100 <= TIME_MAX - DELAY) as H1 by (vm_compute; split; discriminate).
  assert (Forall (fun u => 100 <= u < 100 + DELAY) [100; 101; 102; 102]) as H2
    by (repeat constructor; vm_compute; discriminate).
  assert (100 + DELAY <= 103 <= TIME_MAX) as H3 by (vm_compute; split; discriminate).
  split; [done|].
  destruct (watchdog_sleeps_remaining_interval 77 100 [100; 101; 102; 102] 103 [104]
              init_process H1 H2 H3) as (_ & H & _).
  cbn [app] in H. rewrite H. reflexivity.
Defined.

(** ** The forked child *)

(** The loop of the watchdog touches nothing but the log, to which it adds
    sleeps, and it does not end the process. *)
Lemma child_loop_frame start clock p :
  match child_loop start clock p with
  | Ret _ p' | Fuel p' =>
      sigtab p' = sigtab p
      /\ original_segv_handler p' = original_segv_handler p
      /\ exists sleeps, Forall is_sleep sleeps /\ log p' = log p ++ sleeps
  | Halt _ _ => False
  end.
Proof.
  revert p. induction clock as [|t clock IH]; intros p.
  - cbn. repeat split. exists []. split; [constructor|by rewrite app_nil_r].
  - cbn [child_loop]. unfold bind.
    set (zzz := time_t (time_t (start + DELAY) - t)).
    set (p1 := if 0 <? zzz then emit (ESleep (zzz mod 2 ^ 32)) p else p).
    assert ((if 0 <? zzz then sleep zzz else ret tt) p = Ret tt p1) as ->
      by (subst p1; destruct (0 <? zzz); reflexivity).
    assert (sigtab p1 = sigtab p
            /\ original_segv_handler p1 = original_segv_handler p
            /\ exists s, Forall is_sleep s /\ log p1 = log p ++ s)
      as (Ht & Ho & s & Hs & Hlog).
    { subst p1. destruct (0 <? zzz).
      - repeat split. eexists [_]. split; [|reflexivity]. by repeat constructor.
      - repeat split. exists []. split; [constructor|by rewrite app_nil_r]. }
    destruct (t <? time_t (start + DELAY)).
    + specialize (IH p1).
      destruct (child_loop start clock p1) as [[] p'|e p'|p']; [|done|];
        destruct IH as (Ht' & Ho' & s' & Hs' & Hlog');
        (split; [congruence|]); (split; [congruence|]);
        exists (s ++ s'); (split; [by apply Forall_app|]);
        by rewrite Hlog', Hlog, app_assoc.
    + cbn. eauto.
Qed.

Lemma installs_of_sleeps sleeps : Forall is_sleep sleeps -> installs_of sleeps = [].
Proof.
  induction 1 as [|e l He _ IH]; [done|].
  destruct e; done.
Qed.

(** X2: in the forked child [setup] does not return: the copy of the host
    never goes on into the host's own code; whatever the clock reads it
    either leaves through [_exit(0)] after the signal or is still waiting;
    it installs no disposition and leaves the saved handler alone. *)
Theorem forked_child_never_returns ppid clock p :
  let r := setup 0 ppid clock p in
  returned r = false
  /\ (forall e q, r = Halt e q -> e = Exited 0 /\ kills_of (log q) = kills_of (log p) ++ [(ppid, IPC_SIG)])
  /\ (forall q, r = Fuel q -> kills_of (log q) = kills_of (log p))
  /\ sigtab (final r) = sigtab p
  /\ original_segv_handler (final r) = original_segv_handler p
  /\ installs_of (log (final r)) = installs_of (log p).
Proof.
  cbn zeta. unfold setup, bind. change (0 =? 0) with true. cbv beta iota.
  destruct clock as [|start clock]; [cbn; repeat split; congruence|].
  cbn [child]. unfold bind.
  pose proof (child_loop_frame start clock p) as Hframe.
  destruct (child_loop start clock p) as [[] p'|e p'|p']; [|done|];
    destruct Hframe as (Ht & Ho & s & Hs & Hlog).
  - cbn [kill modify _exit halt returned final emit log sigtab original_segv_handler].
    split; [done|]. split.
    { intros e q [= <- <-]. split; [done|]. cbn [log emit].
      by rewrite Hlog, !kills_of_app, (kills_of_sleeps s Hs), app_nil_r. }
    split; [done|]. split; [done|]. split; [done|].
    rewrite Hlog. unfold installs_of. rewrite !omap_app.
    fold (installs_of s). rewrite (installs_of_sleeps s Hs). cbn. by rewrite !app_nil_r.
  - cbn [returned final]. split; [done|]. split; [done|]. split.
    { intros q [= <-]. by rewrite Hlog, kills_of_app, (kills_of_sleeps s Hs), app_nil_r. }
    split; [done|]. split; [done|].
    rewrite Hlog. unfold installs_of. rewrite omap_app.
    fold (installs_of s). rewrite (installs_of_sleeps s Hs). by rewrite app_nil_r.
Qed.

(** ** Signals the library does not see *)

Lemma host_sigaction_installs host fuel sig h mask flags p :
  catchable sig = true ->
  step host fuel (HostSigaction sig h mask flags) p =
    Ret tt (set_sigtab (<[sig := {| sa_handler := host_ptr h; sa_mask := mask;
                                  sa_flags := flags |}]> (sigtab p)) p).
Proof. intros Hc. cbn [step kernel_sigaction]. by rewrite Hc. Qed.

(** A signal whose disposition is a handler of the host or a sentinel
    runs no code of the library. *)
Lemma deliver_host_disposition host fuel sig forced stack h p :
  sa_handler (disposition p sig) = host_ptr h ->
  deliver host fuel sig forced stack p = host_outcome host h sig forced p.
Proof.
  intros Hh. unfold deliver, host_outcome. rewrite Hh.
  destruct h as [| |a]; cbn [host_ptr]; [done..|].
  rewrite invoke_host. by destruct (host a sig).
Qed.

Lemma host_outcome_frame host h sig forced p :
  log (final (host_outcome host h sig forced p)) = log p
  /\ original_segv_handler (final (host_outcome host h sig forced p))
     = original_segv_handler p
  /\ (forall sig', sig' <> sig ->
      disposition (final (host_outcome host h sig forced p)) sig' = disposition p sig').
Proof.
  destruct (reset_handler_frame sig p) as (Hl & Ho & _).
  assert (forall sig', sig' <> sig ->
            disposition (reset_handler sig p) sig' = disposition p sig') as Hd.
  { intros sig' Hne. rewrite reset_handler_disposition. by rewrite decide_False. }
  unfold host_outcome. destruct h as [| |a].
  - unfold take_default_action. by destruct (default_action sig).
  - by destruct forced.
  - by destruct (host a sig).
Qed.

Lemma not_lib_host_ptr h : is_lib h = false -> exists hh, h = host_ptr hh.
Proof.
  destruct h as [| | | |a]; try discriminate; intros _.
  - by exists HDefault.
  - by exists HIgnore.
  - by exists (HFunction a).
Qed.

(** X3: a fault that comes before the handshake is not intercepted: the
    library writes nothing and stores nothing, and the process meets the
    disposition the host had: death by SIGSEGV under the default or the
    ignoring one, the host's own handler otherwise. *)
Theorem fault_before_handshake_not_intercepted host fuel stack p :
  dormant p ->
  let r := step host fuel (Fault stack) p in
  log (final r) = log p
  /\ original_segv_handler (final r) = original_segv_handler p
  /\ exists h,
       sa_handler (disposition p SIGSEGV) = host_ptr h
       /\ r = match h with
              | HDefault | HIgnore => Halt (Killed SIGSEGV) p
              | HFunction a =>
                  match host a SIGSEGV with
                  | Returns => Ret tt (reset_handler SIGSEGV p)
                  | Exits status => Halt (Exited status) (reset_handler SIGSEGV p)
                  | NeverReturns => Halt Diverted (reset_handler SIGSEGV p)
                  end
              end.
Proof.
  intros Hd. cbn zeta. cbn [step].
  destruct (not_lib_host_ptr (sa_handler (disposition p SIGSEGV))) as [h Hh].
  { by apply (dormant_table p Hd). }
  rewrite (deliver_host_disposition host fuel SIGSEGV true stack h p Hh).
  destruct (host_outcome_frame host h SIGSEGV true p) as (Hl & Ho & _).
  split; [done|]. split; [done|]. exists h. split; [done|].
  by destruct h.
Qed.

Lemma fault_before_handshake_not_intercepted_witness :
  dormant booted
  /\ step test_host 1 (Fault [1; 2; 3]) booted = Halt (Killed SIGSEGV) booted.
Proof.
  split; [exact booted_dormant|].
  destruct (fault_before_handshake_not_intercepted test_host 1 [1; 2; 3] booted
              booted_dormant) as (_ & _ & h & Hh & Hr).
  rewrite Hr. destruct h; [done|done|discriminate Hh].
Defined.

(** X5: a disposition the host installs for the handshake signal replaces
    the handshake handler: the signal of the watchdog then goes to the
    host (its handler, or the default action, or nowhere), the library
    stores no handler and the disposition of SIGSEGV stays as it was:
    nothing is armed. *)
Theorem host_sigaction_takes_handshake_signal host fuel h mask flags stack p :
  exists p1,
    step host fuel (HostSigaction IPC_SIG h mask flags) p = Ret tt p1
    /\ step host fuel (Signal IPC_SIG stack) p1 = host_outcome host h IPC_SIG false p1
    /\ let q := final (step host fuel (Signal IPC_SIG stack) p1) in
       log q = log p
       /\ original_segv_handler q = original_segv_handler p
       /\ disposition q SIGSEGV = disposition p SIGSEGV
       /\ sa_handler (disposition q IPC_SIG) <> ptr_set_segv.
Proof.
  eexists. split; [by apply host_sigaction_installs|].
  match goal with |- step _ _ _ ?q = _ /\ _ => set (p1 := q) end.
  assert (disposition p1 IPC_SIG
          = {| sa_handler := host_ptr h; sa_mask := mask; sa_flags := flags |}) as Hd
    by apply disposition_insert_eq.
  assert (step host fuel (Signal IPC_SIG stack) p1
          = host_outcome host h IPC_SIG false p1) as Hstep.
  { cbn [step]. change (valid_signal IPC_SIG) with true. cbv iota.
    apply deliver_host_disposition. by rewrite Hd. }
  split; [exact Hstep|]. cbn zeta. rewrite Hstep.
  destruct (host_outcome_frame host h IPC_SIG false p1) as (Hl & Ho & Hother).
  split; [by rewrite Hl|]. split; [by rewrite Ho|]. split.
  - rewrite Hother by discriminate. subst p1. by rewrite disposition_insert_ne.
  - pose proof (host_ptr_not_lib h) as Hlib.
    assert (sa_handler (disposition (reset_handler IPC_SIG p1) IPC_SIG) <> ptr_set_segv)
      as Hreset.
    { destruct (reset_handler_handler IPC_SIG IPC_SIG p1) as [-> | ->];
        [discriminate|]. rewrite Hd. cbn [sa_handler]. intros E. by rewrite E in Hlib. }
    assert (sa_handler (disposition p1 IPC_SIG) <> ptr_set_segv) as Hp1
      by (rewrite Hd; cbn [sa_handler]; intros E; by rewrite E in Hlib).
    unfold host_outcome. destruct h as [| |a].
    + unfold take_default_action. by destruct (default_action IPC_SIG).
    + done.
    + by destruct (host a IPC_SIG).
Qed.

(** ** From the load of the library to the fault *)

Lemma setup_parent pid ppid clock p :
  pid <> 0 -> setup pid ppid clock p = Ret tt (handshake_installed p).
Proof.
  intros Hpid. unfold setup, bind. apply Z.eqb_neq in Hpid. by rewrite Hpid.
Qed.

Lemma handshake_installed_disposition sig p :
  disposition (handshake_installed p) sig =
    if decide (IPC_SIG = sig) then handshake_action else disposition p sig.
Proof.
  unfold handshake_installed, disposition. cbn [sigtab emit set_sigtab].
  case_decide as E.
  - subst. by rewrite lookup_insert_eq.
  - by rewrite lookup_insert_ne.
Qed.

Lemma armed_from_log p :
  log (armed_from p) =
    log p ++ [ESigaction SIGSEGV fault_action; EStore (sa_handler (disposition p SIGSEGV))].
Proof.
  unfold armed_from. cbn [log set_original emit set_sigtab]. by rewrite <- app_assoc.
Qed.

(** The handshake, from a process in which the handshake handler is
    installed. *)
Lemma handshake_from host fuel s p :
  sa_handler (disposition p IPC_SIG) = ptr_set_segv ->
  exists p1,
    step host fuel (Signal IPC_SIG s) p = Ret tt p1
    /\ disposition p1 SIGSEGV = fault_action
    /\ original_segv_handler p1 = sa_handler (disposition p SIGSEGV)
    /\ trace p1 = trace p
    /\ log p1 = log p ++ [ESigaction SIGSEGV fault_action;
                          EStore (sa_handler (disposition p SIGSEGV))]
    /\ forall sig, sig <> SIGSEGV -> sig <> IPC_SIG ->
                   disposition p1 sig = disposition p sig.
Proof.
  intros Hh. exists (armed_from (reset_handler IPC_SIG p)).
  destruct (reset_handler_frame IPC_SIG p) as (Hl & Ho & Htr).
  assert (forall sig, sig <> IPC_SIG ->
            disposition (reset_handler IPC_SIG p) sig = disposition p sig) as Hd.
  { intros sig Hne. rewrite reset_handler_disposition. by rewrite decide_False. }
  split; [by apply handshake_step|]. split.
  { rewrite armed_from_disposition. by rewrite decide_True. }
  split; [unfold armed_from; cbn [original_segv_handler set_original];
          by rewrite Hd by discriminate|].
  split; [unfold armed_from; by cbn [trace set_original emit set_sigtab]|].
  split; [rewrite armed_from_log, Hl; by rewrite Hd by discriminate|].
  intros sig Hs Hi. rewrite armed_from_disposition, decide_False by done. by apply Hd.
Qed.

(** A SIGSEGV, raised by a fault or sent with [kill], that meets the
    installed fault handler. *)
Lemma armed_sigsegv host fuel forced stack p :
  buffer_ok p ->
  disposition p SIGSEGV = fault_action ->
  deliver host (S fuel) SIGSEGV forced stack p =
    let h := original_segv_handler p in
    let p1 := after_backtrace stack p in
    if custom h
    then invoke host fuel stack h SIGSEGV
           (emit (ECall h SIGSEGV) (emit (EWrite STDERR_FILENO msg_calling) p1))
    else Halt (Exited 139) (emit (EWrite STDERR_FILENO msg_quitting) p1).
Proof.
  intros Hb Hd. unfold deliver. rewrite Hd. cbn [sa_handler fault_action invoke].
  assert (reset_handler SIGSEGV p = p) as -> by (unfold reset_handler; by rewrite Hd).
  by rewrite handle_segv_unfold.
Qed.

(** X6: loaded in a host that has no SIGSEGV handler of its own (the
    default disposition, or SIGSEGV ignored), the library turns a fault
    after the handshake into a report and an exit with status 139: what
    it did from the load on is the two installations, one store, the
    three notices and the frames; the same fault before the handshake is
    death by the signal. *)
Theorem unhandled_fault_reported_then_exit_139 host fuel pid ppid clock s stack p0 :
  pid <> 0 ->
  buffer_ok p0 ->
  sa_handler (disposition p0 SIGSEGV) = SIG_DFL
  \/ sa_handler (disposition p0 SIGSEGV) = SIG_IGN ->
  (exists p',
     (setup pid ppid clock ;;
      run host (S fuel) [Signal IPC_SIG s; Fault stack]) p0 = Halt (Exited 139) p'
     /\ log p' = log p0
                 ++ [ESigaction IPC_SIG handshake_action;
                     ESigaction SIGSEGV fault_action;
                     EStore (sa_handler (disposition p0 SIGSEGV))]
                 ++ quit_report stack)
  /\ (exists p',
        (setup pid ppid clock ;; run host (S fuel) [Fault stack]) p0
        = Halt (Killed SIGSEGV) p'
        /\ log p' = log p0 ++ [ESigaction IPC_SIG handshake_action]).
Proof.
  intros Hpid Hb Hsent.
  assert (sa_handler (disposition (handshake_installed p0) SIGSEGV)
          = sa_handler (disposition p0 SIGSEGV)) as Hsegv
    by (rewrite handshake_installed_disposition; by rewrite decide_False).
  split.
  - destruct (handshake_from host (S fuel) s (handshake_installed p0))
      as (p1 & Hstep & Hd & Ho & Htr & Hlog & _).
    { rewrite handshake_installed_disposition. by rewrite decide_True. }
    rewrite Hsegv in Ho, Hlog.
    assert (buffer_ok p1) as Hb1 by (unfold buffer_ok; by rewrite Htr).
    assert (custom (original_segv_handler p1) = false) as Hc
      by (apply custom_cases; rewrite Ho; tauto).
    eexists. split.
    + unfold bind at 1. rewrite setup_parent by done.
      rewrite run_cons, Hstep, run_cons. cbn [step].
      rewrite armed_sigsegv by done. cbn zeta. rewrite Hc. reflexivity.
    + cbn [log emit]. rewrite after_backtrace_log, Hlog. cbn [log handshake_installed emit].
      unfold quit_report. rewrite <- !app_assoc. reflexivity.
  - eexists. split.
    + unfold bind at 1. rewrite setup_parent by done. rewrite run_cons. cbn [step].
      unfold deliver. rewrite Hsegv.
      destruct Hsent as [-> | ->]; reflexivity.
    + reflexivity.
Qed.

Lemma unhandled_fault_reported_then_exit_139_witness :
  (1234 <> 0 /\ buffer_ok init_process
   /\ (sa_handler (disposition init_process SIGSEGV) = SIG_DFL
       \/ sa_handler (disposition init_process SIGSEGV) = SIG_IGN))
  /\ exists p',
       (setup 1234 1 [] ;;
        run test_host 1 [Signal IPC_SIG []; Fault [1; 2; 3]]) init_process
       = Halt (Exited 139) p'
       /\ writes_of (log p') = [msg_received; msg_end; msg_quitting].
Proof.
  assert (1234 <> 0) as H1 by discriminate.
  assert (sa_handler (disposition init_process SIGSEGV) = SIG_DFL
          \/ sa_handler (disposition init_process SIGSEGV) = SIG_IGN) as H3
    by (left; reflexivity).
  split; [split; [exact H1|split; [exact init_buffer_ok|exact H3]]|].
  destruct (unhandled_fault_reported_then_exit_139 test_host 0 1234 1 [] [] [1; 2; 3]
              init_process H1 init_buffer_ok H3) as [(p' & Hrun & Hlog) _].
  exists p'. split; [exact Hrun|]. rewrite Hlog. reflexivity.
Defined.

(** X7: a host that ignores SIGSEGV survives a SIGSEGV sent with [kill]
    as long as the handshake has not happened; after the handshake the
    same signal is reported and ends the process with status 139: the
    library takes the ignoring disposition for the absence of a handler. *)
Theorem ignored_sigsegv_fatal_once_armed host fuel s stack p :
  buffer_ok p ->
  sa_handler (disposition p SIGSEGV) = SIG_IGN ->
  sa_handler (disposition p IPC_SIG) = ptr_set_segv ->
  step host (S fuel) (Signal SIGSEGV stack) p = Ret tt p
  /\ exists p1 p',
       step host (S fuel) (Signal IPC_SIG s) p = Ret tt p1
       /\ step host (S fuel) (Signal SIGSEGV stack) p1 = Halt (Exited 139) p'
       /\ log p' = log p ++ [ESigaction SIGSEGV fault_action; EStore SIG_IGN]
                         ++ quit_report stack.
Proof.
  intros Hb Hign Hipc. split.
  - cbn [step]. change (valid_signal SIGSEGV) with true. cbv iota.
    unfold deliver. by rewrite Hign.
  - destruct (handshake_from host (S fuel) s p Hipc)
      as (p1 & Hstep & Hd & Ho & Htr & Hlog & _).
    rewrite Hign in Ho, Hlog.
    assert (buffer_ok p1) as Hb1 by (unfold buffer_ok; by rewrite Htr).
    exists p1. eexists. split; [exact Hstep|]. split.
    + cbn [step]. change (valid_signal SIGSEGV) with true. cbv iota.
      rewrite armed_sigsegv by done. cbn zeta. rewrite Ho. reflexivity.
    + cbn [log emit]. rewrite after_backtrace_log, Hlog.
      unfold quit_report. rewrite <- !app_assoc. reflexivity.
Qed.

Lemma ignored_sigsegv_fatal_once_armed_witness :
  (buffer_ok ignoring_host
   /\ sa_handler (disposition ignoring_host SIGSEGV) = SIG_IGN
   /\ sa_handler (disposition ignoring_host IPC_SIG) = ptr_set_segv)
  /\ step test_host 1 (Signal SIGSEGV [1; 2]) ignoring_host = Ret tt ignoring_host.
Proof.
  assert (buffer_ok ignoring_host) as Hb by reflexivity.
  split; [split; [exact Hb|split; reflexivity]|].
  destruct (ignored_sigsegv_fatal_once_armed test_host 0 [] [1; 2] ignoring_host
              Hb eq_refl eq_refl) as [H _].
  exact H.
Defined.

(** ** The test program under the library *)

(** X8: testsegvcatcher under the library.  When the handshake comes
    after [main] has installed [segv_handler], a fault is reported in
    full, then delegated to [segv_handler], and the process exits with
    status 0.  When the handshake comes before, [main]'s [sigaction]
    replaces the fault handler: the process exits with status 0 all the
    same, and the library has written nothing. *)
Theorem test_program_traced_iff_handshake_after_main fuel pid ppid clock a s stack p0 :
  pid <> 0 ->
  buffer_ok p0 ->
  (exists p',
     (setup pid ppid clock ;;
      run test_host (S fuel) (main_startup a ++ [Signal IPC_SIG s; Fault stack])) p0
     = Halt (Exited 0) p'
     /\ log p' = log p0
                 ++ [ESigaction IPC_SIG handshake_action;
                     ESigaction SIGSEGV fault_action;
                     EStore (ptr_host a)]
                 ++ fault_report (ptr_host a) stack)
  /\ (exists p',
        (setup pid ppid clock ;;
         run test_host (S fuel) ([Signal IPC_SIG s] ++ main_startup a ++ [Fault stack])) p0
        = Halt (Exited 0) p'
        /\ log p' = log p0
                    ++ [ESigaction IPC_SIG handshake_action;
                        ESigaction SIGSEGV fault_action;
                        EStore (sa_handler (disposition p0 SIGSEGV))]
        /\ writes_of (log p') = writes_of (log p0)).
Proof.
  intros Hpid Hb. split.
  - set (q := set_sigtab
                (<[SIGSEGV := {| sa_handler := host_ptr (HFunction a); sa_mask := [];
                                sa_flags := 0 |}]> (sigtab (handshake_installed p0)))
                (handshake_installed p0)).
    assert (disposition q SIGSEGV
            = {| sa_handler := ptr_host a; sa_mask := []; sa_flags := 0 |}) as Hq
      by apply disposition_insert_eq.
    destruct (handshake_from test_host (S fuel) s q)
      as (p1 & Hstep & Hd & Ho & Htr & Hlog & _).
    { subst q. rewrite disposition_insert_ne by discriminate.
      rewrite handshake_installed_disposition. by rewrite decide_True. }
    rewrite Hq in Ho, Hlog. cbn [sa_handler] in Ho, Hlog.
    assert (buffer_ok p1) as Hb1 by (unfold buffer_ok; by rewrite Htr).
    eexists. split.
    + unfold bind at 1. rewrite setup_parent by done.
      cbn [main_startup app]. rewrite run_cons.
      rewrite host_sigaction_installs by reflexivity. fold q.
      rewrite run_cons, Hstep, run_cons. cbn [step].
      rewrite armed_sigsegv by done. cbn zeta. rewrite Ho.
      change (custom (ptr_host a)) with true. cbv iota.
      rewrite invoke_host. reflexivity.
    + cbn [log emit]. rewrite after_backtrace_log, Hlog.
      cbn [q log set_sigtab handshake_installed emit].
      unfold fault_report. rewrite <- !app_assoc. reflexivity.
  - destruct (handshake_from test_host (S fuel) s (handshake_installed p0))
      as (p1 & Hstep & Hd & Ho & Htr & Hlog & _).
    { rewrite handshake_installed_disposition. by rewrite decide_True. }
    assert (sa_handler (disposition (handshake_installed p0) SIGSEGV)
            = sa_handler (disposition p0 SIGSEGV)) as Hsegv
      by (rewrite handshake_installed_disposition; by rewrite decide_False).
    rewrite Hsegv in Hlog.
    set (q := set_sigtab
                (<[SIGSEGV := {| sa_handler := host_ptr (HFunction a); sa_mask := [];
                                sa_flags := 0 |}]> (sigtab p1)) p1).
    assert (sa_handler (disposition q SIGSEGV) = host_ptr (HFunction a)) as Hq
      by (subst q; by rewrite disposition_insert_eq).
    assert (reset_handler SIGSEGV q = q) as Hreset.
    { unfold reset_handler. subst q. by rewrite disposition_insert_eq. }
    exists q. split; [|split].
    + unfold bind at 1. rewrite setup_parent by done.
      cbn [main_startup app]. rewrite run_cons, Hstep, run_cons.
      rewrite host_sigaction_installs by reflexivity. fold q.
      rewrite run_cons. cbn [step].
      rewrite (deliver_host_disposition test_host (S fuel) SIGSEGV true stack
                 (HFunction a) q Hq).
      cbn. by rewrite Hreset.
    + cbn [q log set_sigtab]. rewrite Hlog. cbn [log handshake_installed emit].
      by rewrite <- !app_assoc.
    + cbn [q log set_sigtab]. rewrite Hlog. cbn [log handshake_installed emit].
      unfold writes_of. rewrite !omap_app. cbn. by rewrite !app_nil_r.
Qed.

Lemma test_program_traced_iff_handshake_after_main_witness :
  (1234 <> 0 /\ buffer_ok init_process)
  /\ exists p',
       (setup 1234 1 [] ;;
        run test_host 1 (main_startup 4096 ++ [Signal IPC_SIG []; Fault [1; 2; 3]]))
         init_process = Halt (Exited 0) p'
       /\ writes_of (log p') = [msg_received; msg_end; msg_calling].
Proof.
  assert (1234 <> 0) as H1 by discriminate.
  split; [split; [exact H1|exact init_buffer_ok]|].
  destruct (test_program_traced_iff_handshake_after_main 0 1234 1 [] 4096 [] [1; 2; 3]
              init_process H1 init_buffer_ok) as [(p' & Hrun & Hlog) _].
  exists p'. split; [exact Hrun|]. rewrite Hlog. reflexivity.
Defined.

(** ** The handshake handler run twice *)

(** With its own address as the saved handler, the fault handler calls
    itself: every level reports and delegates, and no amount of fuel
    brings the call to an end. *)
Lemma self_delegation_unbounded host fuel stack x p :
  buffer_ok p ->
  original_segv_handler p = ptr_handle_segv ->
  exists q,
    invoke host fuel stack ptr_handle_segv x p = Fuel q
    /\ calls_of (log q) = calls_of (log p) ++ replicate fuel (ptr_handle_segv, x).
Proof.
  revert p. induction fuel as [|fuel IH]; intros p Hb Ho.
  - exists p. split; [reflexivity|]. cbn. by rewrite app_nil_r.
  - cbn [invoke]. rewrite handle_segv_unfold by done. cbn zeta. rewrite Ho.
    change (custom ptr_handle_segv) with true. cbv iota.
    match goal with |- context [invoke host fuel stack _ x ?p1] =>
      destruct (IH p1) as (q & Hq & Hcalls) end.
    + unfold buffer_ok. cbn [trace emit]. by apply after_backtrace_buffer.
    + done.
    + exists q. split; [exact Hq|]. rewrite Hcalls. cbn [log emit].
      rewrite !calls_of_app, after_backtrace_log, calls_of_app. cbn.
      rewrite !app_nil_r, <- app_assoc. reflexivity.
Qed.

(** X9: [set_segv] is not idempotent.  Run a second time it finds the
    fault handler installed and saves that as the host's handler; a
    SIGSEGV then makes [handle_segv] delegate to itself, a report at
    every level, without end.  The handshake handler must run once
    only, which its one-shot installation is there for. *)
Theorem set_segv_twice_delegates_to_itself host fuel stack x y z p :
  buffer_ok p ->
  exists p2,
    (set_segv x ;; set_segv y) p = Ret tt p2
    /\ original_segv_handler p2 = ptr_handle_segv
    /\ stores_of (log p2)
       = stores_of (log p) ++ [sa_handler (disposition p SIGSEGV); ptr_handle_segv]
    /\ exists q,
         invoke host fuel stack ptr_handle_segv z p2 = Fuel q
         /\ calls_of (log q) = calls_of (log p2) ++ replicate fuel (ptr_handle_segv, z).
Proof.
  intros Hb. exists (armed_from (armed_from p)).
  assert (disposition (armed_from p) SIGSEGV = fault_action) as Hd
    by (rewrite armed_from_disposition; by rewrite decide_True).
  assert (original_segv_handler (armed_from (armed_from p)) = ptr_handle_segv) as Ho
    by (unfold armed_from at 1; cbn [original_segv_handler set_original]; by rewrite Hd).
  split; [reflexivity|]. split; [exact Ho|]. split.
  - rewrite !armed_from_log, Hd, !stores_of_app. cbn. by rewrite <- app_assoc.
  - apply self_delegation_unbounded; [|exact Ho].
    unfold buffer_ok, armed_from. by cbn [trace set_original emit set_sigtab].
Qed.

Lemma set_segv_twice_delegates_to_itself_witness :
  buffer_ok booted
  /\ exists q,
       invoke test_host 5 [1; 2; 3] ptr_handle_segv SIGSEGV
         (final ((set_segv IPC_SIG ;; set_segv IPC_SIG) booted)) = Fuel q
       /\ length (calls_of (log q)) = 5%nat.
Proof.
  split; [exact booted_buffer_ok|].
  destruct (set_segv_twice_delegates_to_itself test_host 5 [1; 2; 3] IPC_SIG IPC_SIG
              SIGSEGV booted booted_buffer_ok) as (p2 & Hp2 & _ & _ & q & Hq & Hcalls).
  exists q. rewrite Hp2. split; [exact Hq|]. rewrite Hcalls.
  injection Hp2 as <-. reflexivity.
Defined.

(** ** The disposition of the handshake signal *)

(** X11: the library takes the handshake signal for good.  Whatever
    disposition the signal had when the library was loaded, [setup]
    overwrites it without keeping it, so the process it leaves does not
    depend on it; and after the handshake the disposition is the default
    one, with the flags of the handshake handler: the earlier one is not
    put back. *)
Theorem handshake_signal_disposition_not_restored host fuel pid ppid clock s act p0 :
  pid <> 0 ->
  setup pid ppid clock (with_ipc_disposition act p0) = setup pid ppid clock p0
  /\ exists p1,
       (setup pid ppid clock ;; run host fuel [Signal IPC_SIG s])
         (with_ipc_disposition act p0) = Ret tt p1
       /\ disposition p1 IPC_SIG
          = {| sa_handler := SIG_DFL; sa_mask := [];
               sa_flags := Z.lor SA_RESTART SA_RESETHAND |}
       /\ stores_of (log p1)
          = stores_of (log p0) ++ [sa_handler (disposition p0 SIGSEGV)].
Proof.
  intros Hpid.
  assert (handshake_installed (with_ipc_disposition act p0) = handshake_installed p0)
    as Heq.
  { unfold handshake_installed, with_ipc_disposition.
    cbn [sigtab set_sigtab original_segv_handler trace traces log].
    by rewrite insert_insert_eq. }
  split; [by rewrite !setup_parent, Heq by done|].
  destruct (handshake_from host fuel s (handshake_installed p0))
    as (p1 & Hstep & _ & _ & _ & Hlog & _).
  { rewrite handshake_installed_disposition. by rewrite decide_True. }
  exists p1. split; [|split].
  - unfold bind at 1. rewrite setup_parent, Heq by done.
    rewrite run_cons, Hstep. reflexivity.
  - rewrite handshake_step in Hstep
      by (rewrite handshake_installed_disposition; by rewrite decide_True).
    injection Hstep as <-.
    rewrite armed_from_disposition, decide_False by discriminate.
    rewrite reset_handler_disposition, decide_True by done.
    rewrite handshake_installed_disposition, decide_True by done. reflexivity.
  - rewrite Hlog, handshake_installed_disposition, decide_False by discriminate.
    cbn [log handshake_installed emit set_sigtab]. rewrite !stores_of_app. cbn.
    by rewrite app_nil_r.
Qed.

Lemma handshake_signal_disposition_not_restored_witness :
  1234 <> 0
  /\ setup 1234 1 []
       (with_ipc_disposition {| sa_handler := SIG_IGN; sa_mask := []; sa_flags := 0 |}
          init_process)
     = Ret tt booted.
Proof.
  assert (1234 <> 0) as H1 by discriminate.
  split; [exact H1|].
  destruct (handshake_signal_disposition_not_restored test_host 1 1234 1 [] []
              {| sa_handler := SIG_IGN; sa_mask := []; sa_flags := 0 |}
              init_process H1) as [H _].
  rewrite H. reflexivity.
Defined.

(** ** Parent and child together *)

Lemma run_app host fuel ins1 ins2 p :
  run host fuel (ins1 ++ ins2) p =
    match run host fuel ins1 p with
    | Ret _ p' => run host fuel ins2 p'
    | Halt e p' => Halt e p'
    | Fuel p' => Fuel p'
    end.
Proof.
  revert p. induction ins1 as [|i ins1 IH]; intros p; [done|].
  cbn [app]. rewrite !run_cons. destruct (step host fuel i p); [apply IH|done..].
Qed.

Lemma signals_to_sleeps pid stack (us : list Z) (f : Z -> Z) :
  signals_to pid stack (map (fun u => ESleep (f u)) us) = [].
Proof. induction us as [|u us IH]; [done|]. exact IH. Qed.

(** X12: the two processes of a successful fork fit together.  The child,
    with a clock that does not run backwards, sends one signal to its
    parent, and it is the signal for which the parent has installed the
    handshake handler: delivered after the host's startup, provided that
    startup returned and left the handshake handler in place, it arms
    the fault handler and saves the SIGSEGV handler the host had by
    then. *)
Theorem watchdog_signal_arms_parent host fuel pid me start early t late stack ins p0 p :
  pid <> 0 ->
  log p0 = [] ->
  0 <= start <= TIME_MAX - DELAY ->
  Forall (fun u => start <= u < start + DELAY) early ->
  start + DELAY <= t <= TIME_MAX ->
  run host (S fuel) ins (final (setup pid me [] p0)) = Ret tt p ->
  sa_handler (disposition p IPC_SIG) = ptr_set_segv ->
  let sent := signals_to me stack
                (log (final (setup 0 me (start :: early ++ t :: late) p0))) in
  sent = [Signal IPC_SIG stack]
  /\ exists p1,
       run host (S fuel) (ins ++ sent) (final (setup pid me [] p0)) = Ret tt p1
       /\ disposition p1 SIGSEGV = fault_action
       /\ original_segv_handler p1 = sa_handler (disposition p SIGSEGV)
       /\ stores_of (log p1) = stores_of (log p) ++ [sa_handler (disposition p SIGSEGV)].
Proof.
  intros Hpid Hlog0 Hstart Hearly Ht Hrun Hipc sent.
  assert (sent = [Signal IPC_SIG stack]) as Hsent.
  { subst sent. unfold setup, bind. change (0 =? 0) with true. cbv beta iota.
    cbn [child]. unfold bind. rewrite child_loop_sleeps by done.
    cbn [kill modify _exit halt final log emit]. rewrite emit_all_log, Hlog0.
    cbn [app]. unfold signals_to. rewrite omap_app.
    fold (signals_to me stack (map (fun u => ESleep (start + DELAY - u)) early)).
    rewrite signals_to_sleeps. cbn. by rewrite bool_decide_eq_true_2. }
  split; [exact Hsent|].
  destruct (handshake_from host (S fuel) stack p Hipc)
    as (p1 & Hstep & Hd & Ho & _ & Hlog & _).
  exists p1. split; [|split; [exact Hd|split; [exact Ho|]]].
  - rewrite run_app, Hrun, Hsent, run_cons, Hstep. reflexivity.
  - rewrite Hlog, stores_of_app. reflexivity.
Qed.

Lemma watchdog_signal_arms_parent_witness :
  (1234 <> 0 /\ log init_process = []
   /\ 0 <= 100 <= TIME_MAX - DELAY
   /\ Forall (fun u => 100 <= u < 100 + DELAY) [100; 102]
   /\ 100 + DELAY <= 103 <= TIME_MAX
   /\ run test_host 1 (main_startup 4096) (final (setup 1234 1 [] init_process))
      = Ret tt host_ready
   /\ sa_handler (disposition host_ready IPC_SIG) = ptr_set_segv)
  /\ run test_host 1
       (main_startup 4096
        ++ signals_to 1 [] (log (final (setup 0 1 [100; 100; 102; 103] init_process))))
       (final (setup 1234 1 [] init_process))
     = Ret tt armed_example.
Proof.
  assert (1234 <> 0) as H1 by discriminate.
  assert (0 <= 100 <= TIME_MAX - DELAY) as H2 by (vm_compute; split; discriminate).
  assert (Forall (fun u => 100 <= u < 100 + DELAY) [100; 102]) as H3
    by (repeat constructor; vm_compute; discriminate).
  assert (100 + DELAY <= 103 <= TIME_MAX) as H4 by (vm_compute; split; discriminate).
  assert (run test_host 1 (main_startup 4096) (final (setup 1234 1 [] init_process))
          = Ret tt host_ready) as H5 by reflexivity.
  split; [repeat (split; [done|]); reflexivity|].
  destruct (watchdog_signal_arms_parent test_host 0 1234 1 100 [100; 102] 103 [] []
              (main_startup 4096) init_process host_ready
              H1 eq_refl H2 H3 H4 H5 eq_refl) as (Hsent & p1 & Hrun & _).
  cbn [app] in Hsent. rewrite Hsent.
  assert (run test_host 1 (main_startup 4096 ++ [Signal IPC_SIG []])
            (final (setup 1234 1 [] init_process)) = Ret tt armed_example) as Hc
    by reflexivity.
  exact Hc.
Defined.

(** ** After the host has taken SIGSEGV back *)

Lemma host_only_reset_handler sig p : host_only p -> host_only (reset_handler sig p).
Proof.
  intros Hp sig'. destruct (reset_handler_handler sig sig' p) as [-> | ->]; [done|apply Hp].
Qed.

Lemma host_outcome_host_only host h sig forced p :
  host_only p ->
  host_only (final (host_outcome host h sig forced p))
  /\ no_fuel (host_outcome host h sig forced p).
Proof.
  intros Hp. pose proof (host_only_reset_handler sig p Hp) as Hr.
  unfold host_outcome. destruct h as [| |a].
  - unfold take_default_action. by destruct (default_action sig).
  - by destruct forced.
  - by destruct (host a sig).
Qed.

(** While no function of the library is installed, no input runs library
    code. *)
Lemma step_host_only host fuel i p :
  host_only p ->
  let r := step host fuel i p in
  host_only (final r) /\ log (final r) = log p
  /\ original_segv_handler (final r) = original_segv_handler p
  /\ no_fuel r.
Proof.
  intros Hp. cbn zeta.
  assert (forall sig forced stack,
            let r := deliver host fuel sig forced stack p in
            host_only (final r) /\ log (final r) = log p
            /\ original_segv_handler (final r) = original_segv_handler p
            /\ no_fuel r) as Hdeliver.
  { intros sig forced stack. cbn zeta.
    destruct (not_lib_host_ptr (sa_handler (disposition p sig)) (Hp sig)) as [h Hh].
    rewrite (deliver_host_disposition host fuel sig forced stack h p Hh).
    destruct (host_outcome_frame host h sig forced p) as (Hl & Ho & _).
    destruct (host_outcome_host_only host h sig forced p Hp) as [Hq Hnf].
    done. }
  destruct i as [stack|sig stack|sig h mask flags].
  - apply Hdeliver.
  - cbn [step]. destruct (valid_signal sig); [apply Hdeliver|done].
  - destruct (host_sigaction_step host fuel sig h mask flags p) as [-> | ->]; [done|].
    split; [|done]. intros sig'. cbn [final]. rewrite disposition_insert.
    case_decide; [apply host_ptr_not_lib|apply Hp].
Qed.

Lemma run_host_only host fuel ins p :
  host_only p ->
  let r := run host fuel ins p in
  host_only (final r) /\ log (final r) = log p
  /\ original_segv_handler (final r) = original_segv_handler p
  /\ no_fuel r.
Proof.
  revert p. induction ins as [|i ins IH]; intros p Hp; cbn zeta; [done|].
  rewrite run_cons. destruct (step_host_only host fuel i p Hp) as (Hq & Hl & Ho & Hnf).
  destruct (step host fuel i p) as [[] p'|e p'|p']; [|done|by destruct (Hnf p')].
  cbn [final] in *. rewrite <- Hl, <- Ho. by apply IH.
Qed.

(** X4: once the handshake has armed the fault handler, a SIGSEGV
    disposition of the host's own (the default one, the ignoring one or
    one of its functions) that the host installs ends the interception
    for good: whatever faults, signals and host [sigaction] calls of that
    kind follow, the library writes nothing, installs nothing, stores
    nothing and is installed for no signal. *)
Theorem host_own_sigsegv_disposition_ends_interception
    host fuel s h mask flags ins p :
  dormant p ->
  sa_handler (disposition p IPC_SIG) = ptr_set_segv ->
  exists pa p1,
    step host fuel (Signal IPC_SIG s) p = Ret tt pa
    /\ disposition pa SIGSEGV = fault_action
    /\ step host fuel (HostSigaction SIGSEGV h mask flags) pa = Ret tt p1
    /\ disposition p1 SIGSEGV
       = {| sa_handler := host_ptr h; sa_mask := mask; sa_flags := flags |}
    /\ let r := run host fuel ins p1 in
       log (final r) = log pa
       /\ original_segv_handler (final r) = original_segv_handler pa
       /\ host_only (final r)
       /\ no_fuel r.
Proof.
  intros Hd Hipc.
  set (pa := armed_from (reset_handler IPC_SIG p)).
  set (p1 := set_sigtab
               (<[SIGSEGV := {| sa_handler := host_ptr h; sa_mask := mask;
                               sa_flags := flags |}]> (sigtab pa)) pa).
  exists pa, p1.
  assert (host_only p1) as Hp1.
  { intros sig. subst p1. rewrite disposition_insert.
    case_decide as Hseg; [apply host_ptr_not_lib|].
    subst pa. rewrite armed_from_disposition, decide_False by done.
    rewrite reset_handler_disposition. case_decide as Hi.
    - subst sig. by rewrite (dormant_reset p Hd Hipc).
    - apply (dormant_table p Hd). congruence. }
  split; [by apply handshake_step|].
  split; [subst pa; rewrite armed_from_disposition; by rewrite decide_True|].
  split; [by apply host_sigaction_installs|].
  split; [apply disposition_insert_eq|].
  destruct (run_host_only host fuel ins p1 Hp1) as (Hq & Hl & Ho & Hnf).
  done.
Qed.

Lemma host_own_sigsegv_disposition_ends_interception_witness :
  (dormant booted /\ sa_handler (disposition booted IPC_SIG) = ptr_set_segv)
  /\ log (final (run test_host 1
                   [Signal IPC_SIG []; HostSigaction SIGSEGV (HFunction 4096) [] 0;
                    Fault [1; 2; 3]; Signal IPC_SIG []]
                   booted))
     = log armed_bare.
Proof.
  split; [split; [exact booted_dormant|reflexivity]|].
  destruct (host_own_sigsegv_disposition_ends_interception test_host 1 []
              (HFunction 4096) [] 0 [Fault [1; 2; 3]; Signal IPC_SIG []]
              booted booted_dormant eq_refl)
    as (pa & p1 & H1 & _ & H2 & _ & H3 & _).
  rewrite run_cons, H1. lazy beta iota. rewrite run_cons, H2. lazy beta iota.
  cbv zeta in H3. rewrite H3.
  assert (step test_host 1 (Signal IPC_SIG []) booted = Ret tt armed_bare) as Hb
    by reflexivity.
  congruence.
Defined.

(** ** A SIGSEGV inside the handshake handler *)

Lemma set_segv_interrupted_by_nothing x p :
  set_segv_interrupted (ret tt) x p = set_segv x p.
Proof. reflexivity. Qed.

(** C6, the code at the failing input: [set_segv] installs the fault
    handler before it stores the saved handler, and SIGSEGV is not
    blocked in between.  In a host whose SIGSEGV disposition at the
    handshake is its own function [a], a SIGSEGV that is delivered
    between the [sigaction] call and the store finds the saved handler
    still zero, that is SIG_DFL: the fault handler reports, calls
    nothing, and ends the process with status 139; the store is never
    made.  The same signal after the store is delegated to [a]. *)
Theorem fault_inside_set_segv_misses_host_handler host fuel forced stack a x p :
  buffer_ok p ->
  original_segv_handler p = SIG_DFL ->
  sa_handler (disposition p SIGSEGV) = ptr_host a ->
  (exists p',
     set_segv_interrupted (deliver host (S fuel) SIGSEGV forced stack) x p
     = Halt (Exited 139) p'
     /\ log p' = log p ++ [ESigaction SIGSEGV fault_action] ++ quit_report stack
     /\ original_segv_handler p' = SIG_DFL
     /\ stores_of (log p') = stores_of (log p)
     /\ calls_of (log p') = calls_of (log p))
  /\ (exists p1,
        set_segv x p = Ret tt p1
        /\ original_segv_handler p1 = ptr_host a
        /\ deliver host (S fuel) SIGSEGV forced stack p1
           = invoke host fuel stack (ptr_host a) SIGSEGV
               (emit (ECall (ptr_host a) SIGSEGV)
                  (emit (EWrite STDERR_FILENO msg_calling) (after_backtrace stack p1)))).
Proof.
  intros Hb Ho Hh. split.
  - set (q := emit (ESigaction SIGSEGV fault_action)
                (set_sigtab (<[SIGSEGV := fault_action]> (sigtab p)) p)).
    assert (disposition q SIGSEGV = fault_action) as Hd
      by (unfold q, disposition; cbn; by rewrite lookup_insert_eq).
    assert (buffer_ok q) as Hbq by exact Hb.
    assert (deliver host (S fuel) SIGSEGV forced stack q
            = Halt (Exited 139)
                (emit (EWrite STDERR_FILENO msg_quitting) (after_backtrace stack q)))
      as Hwin.
    { rewrite armed_sigsegv by done. cbn zeta.
      change (original_segv_handler q) with (original_segv_handler p).
      by rewrite Ho. }
    eexists. split; [|split; [|split; [|split]]].
    + assert (forall window,
                set_segv_interrupted window x p =
                  match window q with
                  | Ret _ p' =>
                      Ret tt (set_original (sa_handler (disposition p SIGSEGV))
                                (emit (EStore (sa_handler (disposition p SIGSEGV))) p'))
                  | Halt e p' => Halt e p'
                  | Fuel p' => Fuel p'
                  end) as Hunfold by reflexivity.
      rewrite Hunfold, Hwin. reflexivity.
    + cbn [log emit]. rewrite after_backtrace_log. cbn [q log emit set_sigtab].
      unfold quit_report. rewrite <- !app_assoc. reflexivity.
    + exact Ho.
    + cbn [log emit]. rewrite after_backtrace_log. cbn [q log emit set_sigtab].
      rewrite !stores_of_app. cbn. by rewrite !app_nil_r.
    + cbn [log emit]. rewrite after_backtrace_log. cbn [q log emit set_sigtab].
      rewrite !calls_of_app. cbn. by rewrite !app_nil_r.
  - exists (armed_from p). split; [apply set_segv_unfold|].
    assert (original_segv_handler (armed_from p) = ptr_host a) as Ho1
      by (unfold armed_from; cbn [original_segv_handler set_original]; exact Hh).
    split; [exact Ho1|].
    rewrite armed_sigsegv.
    + cbn zeta. rewrite Ho1. reflexivity.
    + exact Hb.
    + rewrite armed_from_disposition. by rewrite decide_True.
Qed.

Lemma fault_inside_set_segv_misses_host_handler_witness :
  (buffer_ok (reset_handler IPC_SIG host_ready)
   /\ original_segv_handler (reset_handler IPC_SIG host_ready) = SIG_DFL
   /\ sa_handler (disposition (reset_handler IPC_SIG host_ready) SIGSEGV) = ptr_host 4096)
  /\ exists p',
       set_segv_interrupted (deliver test_host 1 SIGSEGV false [1; 2; 3]) IPC_SIG
         (reset_handler IPC_SIG host_ready) = Halt (Exited 139) p'
       /\ calls_of (log p') = []
       /\ writes_of (log p') = [msg_received; msg_end; msg_quitting].
Proof.
  assert (buffer_ok (reset_handler IPC_SIG host_ready)) as Hb by reflexivity.
  split; [split; [exact Hb|split; reflexivity]|].
  destruct (fault_inside_set_segv_misses_host_handler test_host 0 false [1; 2; 3] 4096
              IPC_SIG (reset_handler IPC_SIG host_ready) Hb eq_refl eq_refl)
    as [(p' & Hrun & Hlog & _ & _ & Hcalls) _].
  exists p'. split; [exact Hrun|]. split.
  - rewrite Hcalls. reflexivity.
  - rewrite Hlog. reflexivity.
Defined.
